(** * KiCon '19 badge host driver: frame codec, checksum and reset handshake

    A shallow embedding of [python/kicon_badge.py] (class [KiconBadge]).
    Python [int]s are [Z], [bytes] objects are lists of [Byte.byte],
    exceptions are values of [exn] and every method that talks to the
    serial port is a state transformer over an abstract host [T]
    (serial port plus clock) returning a [result] next to the new state,
    so that what was written before an exception stays observable. *)

From Stdlib Require Import ZArith NArith List String Ascii Lia Permutation Bool.
From Stdlib Require Import Strings.Byte HexadecimalString.
Import ListNotations.
Local Open Scope Z_scope.

(** ** The Python fragment used by the driver *)

Module Py.

Definition bytes := list byte.

(** [b[i]] yields an [int] in [0, 255]. *)
Definition int_of_byte (b : byte) : Z := Z.of_N (Byte.to_N b).

(** The byte of an [int] already known to be reduced modulo 256. *)
Definition byte_of_N (n : N) : byte :=
  match Byte.of_N (n mod 256) with Some b => b | None => x00 end.

Definition byte_of_Z (z : Z) : option byte :=
  if (0 <=? z) && (z <=? 255) then Some (byte_of_N (Z.to_N z)) else None.

Definition bytes_eqb (a b : bytes) : bool :=
  if list_eq_dec Byte.byte_eq_dec a b then true else false.

(** Exceptions: [Exception(msg)] is what the driver raises itself, the
    others come from the interpreter and the [struct] module. *)
Inductive exn :=
| Exception (msg : string)
| IndexError
| StructError
| OverflowError.

Inductive result (A : Type) :=
| Ok (a : A)
| Raise (e : exn).
Arguments Ok {A} a.
Arguments Raise {A} e.

Definition rbind {A B} (r : result A) (k : A -> result B) : result B :=
  match r with Ok a => k a | Raise e => Raise e end.

(** An argument that is either an [int] or a [bytes] object. *)
Inductive obj :=
| Int (n : Z)
| Bytes (b : bytes).

(** Index normalisation of a slice bound: negative bounds count from the
    end, everything is clamped to [0, len]. *)
Definition clamp (len i : Z) : nat :=
  Z.to_nat (if i <? 0 then Z.max 0 (len + i) else Z.min i len).

(** [b[start:stop]] (step 1). *)
Definition slice (b : bytes) (start stop : Z) : bytes :=
  let len := Z.of_nat (List.length b) in
  let i := clamp len start in
  let j := clamp len stop in
  firstn (j - i)%nat (skipn i b).

(** [b[i]], with [IndexError] outside [-len, len). *)
Definition index (b : bytes) (i : Z) : result Z :=
  let len := Z.of_nat (List.length b) in
  let j := if i <? 0 then len + i else i in
  if (0 <=? j) && (j <? len)
  then match nth_error b (Z.to_nat j) with
       | Some x => Ok (int_of_byte x)
       | None => Raise IndexError
       end
  else Raise IndexError.

(** [struct.pack] with byte order [>]: the format codes the driver uses. *)
Inductive fmt :=
| fB            (* B : unsigned char *)
| fH            (* H : unsigned short *)
| fs (n : nat). (* <n>s : byte string of n bytes *)

Inductive arg :=
| aInt (z : Z)
| aBytes (b : bytes).

Definition pack1 (f : fmt) (a : arg) : result bytes :=
  match f, a with
  | fB, aInt z =>
      match byte_of_Z z with
      | Some b => Ok [b]
      | None => Raise StructError
      end
  | fH, aInt z =>
      if (0 <=? z) && (z <=? 65535)
      then Ok [byte_of_N (Z.to_N (z / 256)); byte_of_N (Z.to_N z)]
      else Raise StructError
  | fs n, aBytes b => Ok (firstn n b ++ repeat x00 (n - List.length b)%nat)
  | _, _ => Raise StructError
  end.

Fixpoint pack (f : list fmt) (a : list arg) : result bytes :=
  match f, a with
  | [], [] => Ok []
  | f1 :: f', a1 :: a' =>
      rbind (pack1 f1 a1) (fun b1 =>
      rbind (pack f' a') (fun b' => Ok (b1 ++ b')))
  | _, _ => Raise StructError
  end.

(** [struct.calcsize]. *)
Definition fmt_size (f : fmt) : nat :=
  match f with fB => 1 | fH => 2 | fs n => n end.

Definition calcsize (f : list fmt) : nat := list_sum (map fmt_size f).

(** [int.bit_length()]. *)
Definition bit_length (n : Z) : Z := Z.of_N (N.size (Z.abs_N n)).

(** The [len] low base-256 digits of [n], most significant first. *)
Fixpoint be_digits (len : nat) (n : N) : bytes :=
  match len with
  | O => []
  | S k => be_digits k (n / 256) ++ [byte_of_N n]
  end.

(** [n.to_bytes(len, 'big')] (unsigned). *)
Definition to_bytes (n : Z) (len : Z) : result bytes :=
  if (n <? 0) || (256 ^ len <=? n) then Raise OverflowError
  else Ok (be_digits (Z.to_nat len) (Z.to_N n)).

(** ['%x' % z]. *)
Definition hex (n : N) : string := NilZero.string_of_uint (N.to_hex_uint n).

Definition fmt_x (z : Z) : string :=
  if z <? 0 then String "-" (hex (Z.abs_N z)) else hex (Z.abs_N z).

(** ['%.2x' % z]: at least two digits. *)
Definition pad2 (s : string) : string :=
  match s with
  | String c EmptyString => String "0" (String c EmptyString)
  | _ => s
  end.

Definition fmt_2x (z : Z) : string :=
  if z <? 0 then String "-" (pad2 (hex (Z.abs_N z))) else pad2 (hex (Z.abs_N z)).

(** [str(binascii.hexlify(b), 'ascii')]. *)
Fixpoint hexlify (b : bytes) : string :=
  match b with
  | [] => EmptyString
  | x :: b' => (pad2 (hex (Byte.to_N x)) ++ hexlify b')%string
  end.

Definition dquote : ascii := "034"%char.

End Py.

Import Py.

(** ** The host: serial port and clock

    [serial.Serial.read(n)] returns at most [n] bytes (fewer when the
    timeout expires), [write] sends bytes, [time.sleep(0.1)] lets time
    pass. The driver is written against this interface only. *)

Class Host (T : Type) := {
  serial_read : nat -> T -> bytes * T;
  serial_write : bytes -> T -> T;
  time_sleep : T -> T
}.

(** A method body: a state transformer that returns or raises. *)
Definition M (T A : Type) : Type := T -> result A * T.

Definition ret {T A} (a : A) : M T A := fun s => (Ok a, s).
Definition raise {T A} (e : exn) : M T A := fun s => (Raise e, s).
Definition lift {T A} (r : result A) : M T A := fun s => (r, s).
Definition bind {T A B} (m : M T A) (k : A -> M T B) : M T B :=
  fun s => match m s with
           | (Ok a, s') => k a s'
           | (Raise e, s') => (Raise e, s')
           end.

Notation "x <- m ;; k" := (bind m (fun x => k))
  (at level 61, m at next level, right associativity).
Notation "m ;;; k" := (bind m (fun _ => k))
  (at level 61, right associativity).

Definition read {T} `{Host T} (n : Z) : M T bytes :=
  fun s => let (b, s') := serial_read (Z.to_nat n) s in (Ok b, s').
Definition write {T} `{Host T} (b : bytes) : M T unit :=
  fun s => (Ok tt, serial_write b s).

(** A scripted port: [rx] is what the device still has to deliver,
    [log] records every call in order. A read past the end of [rx] is a
    read that timed out. *)
Inductive event :=
| EvRead (n : nat) (got : bytes)
| EvWrite (b : bytes)
| EvSleep.

Record port := { rx : bytes; log : list event }.

#[export] Instance port_host : Host port := {
  serial_read n p :=
    (firstn n (rx p),
     {| rx := skipn n (rx p); log := log p ++ [EvRead n (firstn n (rx p))] |});
  serial_write b p := {| rx := rx p; log := log p ++ [EvWrite b] |};
  time_sleep p := {| rx := rx p; log := log p ++ [EvSleep] |}
}.

(** The bytes written so far, and the number of reads performed. *)
Fixpoint written (l : list event) : list bytes :=
  match l with
  | [] => []
  | EvWrite b :: l' => b :: written l'
  | _ :: l' => written l'
  end.

Fixpoint reads (l : list event) : nat :=
  match l with
  | [] => O
  | EvRead _ _ :: l' => S (reads l')
  | _ :: l' => reads l'
  end.

(** ** The command catalogue

    The driver imports its opcodes from [commands_def], which is
    generated from the firmware headers and is not part of these
    sources: the constants it reads are parameters of the development. *)

Record commands_def := {
  CMD_TYPE_RESET : Z;
  CMD_TYPE_LED : Z;
  CMD_TYPE_I2C : Z;
  CMD_RESP_OK : Z;
  CMD_RESP_RESET : Z;
  CMD_LED_SET : Z;
  CMD_I2C_READ : Z;
  CMD_I2C_WRITE : Z
}.

(** The values the [B] format accepts. *)
Definition is_byte (z : Z) : Prop := 0 <= z <= 255.

(** ** class KiconBadge *)

Definition LED1 : Z := 0.
Definition LED2 : Z := 1.

(** Calculates CRC for transferred data: the XOR of the bytes of a
    sequence; iterating an [int] raises [TypeError], which the handler
    turns into the [int] itself. *)
Definition xor_step (crc : Z) (c : byte) : Z := Z.lxor crc (int_of_byte c).

Definition _crc (data : obj) : Z :=
  match data with
  | Bytes b => fold_left xor_step b 0
  | Int n => n
  end.

(** Creates a response packet. *)
Definition _make_resp (resp : Z) : result bytes :=
  pack [fB; fB; fB] [aInt 1; aInt resp; aInt (_crc (Int resp))].

(** Creates a command packet. *)
Definition _make_cmd (cmd : Z) (data : option bytes) : result bytes :=
  match data with
  | Some data =>
      rbind (pack [fB; fs (List.length data)] [aInt cmd; aBytes data])
        (fun data_bytes =>
      let data_len := List.length data_bytes in
      pack [fB; fs data_len; fB]
           [aInt (Z.of_nat data_len); aBytes data_bytes;
            aInt (_crc (Bytes data_bytes))])
  | None => pack [fB; fB; fB] [aInt 1; aInt cmd; aInt (_crc (Int cmd))]
  end.

(** The messages of the exceptions the driver raises. *)
Definition msg_crc (calc_crc resp_crc : Z) : string :=
  ("CRC error (expected 0x" ++ fmt_x calc_crc ++ ", got 0x"
     ++ fmt_x resp_crc ++ ")")%string.

Definition msg_resp (resp_type : Z) (raw_data : bytes) : string :=
  ("Response != OK: response = 0x" ++ fmt_2x resp_type ++ ", data = "
     ++ String dquote (hexlify raw_data ++ String dquote EmptyString))%string.

Definition msg_reset : string := "No response after reset".
Definition msg_led : string := "Invalid LED number".
Definition msg_reg_addr : string :=
  "I2C register address cannot be longer than 4 bytes".
Definition msg_read_len : string :=
  "Requested data length must be in range [0-255]".
Definition msg_write_len : string :=
  "Written data length must be in range [0-255]".
Definition msg_i2c_clock : string := "I2C clock must be in range [1-400] kHz".
Definition msg_spi_clock : string := "SPI clock must be in range [1-60000] kHz".
Definition msg_spi_mode : string := "SPI mode must be in range [0-3]".
Definition msg_spi_len : string := "SPI data lenght must be in range [0-255]".

Section Driver.

Context {T : Type} `{Host T}.
Variable cmd_defs : commands_def.

(** Receives and validates response from the badge. *)
Definition _get_resp : M T bytes :=
  first <- read 1 ;;
  resp_len <- lift (index first 0) ;;
  resp_data <- read (resp_len + 1) ;;
  resp_type <- lift (index resp_data 0) ;;
  resp_crc <- lift (index resp_data (-1)) ;;
  let calc_crc := _crc (Bytes (slice resp_data 0 (-1))) in
  let raw_data := slice resp_data 1 (-1) in
  if negb (resp_crc =? calc_crc)
  then raise (Exception (msg_crc calc_crc resp_crc))
  else if negb (resp_type =? CMD_RESP_OK cmd_defs)
  then raise (Exception (msg_resp resp_type raw_data))
  else ret raw_data.

(** The [while] loop of [init]. [trials] is the source's counter; the
    loop leaves by the failed comparison or by the [raise], [None] is
    the loop still running when [fuel] iterations are spent. *)
Fixpoint init_loop (fuel : nat) (reset_cmd reset_resp : bytes) (trials : Z)
    (s : T) : option (result unit * T) :=
  match fuel with
  | O => None
  | S fuel' =>
      let (got, s1) := serial_read (List.length reset_resp) s in
      if bytes_eqb got reset_resp then Some (Ok tt, s1)
      else
        let s2 := serial_write reset_cmd s1 in
        let trials := trials + 1 in
        let s3 := time_sleep s2 in
        if trials =? 256 then Some (Raise (Exception msg_reset), s3)
        else init_loop fuel' reset_cmd reset_resp trials s3
  end.

(** Initializes the badge to a valid state. *)
Definition init_fuel (fuel : nat) (s : T) : option (result unit * T) :=
  match pack [fB] [aInt (CMD_TYPE_RESET cmd_defs)] with
  | Raise e => Some (Raise e, s)
  | Ok reset_cmd =>
      match _make_resp (CMD_RESP_RESET cmd_defs) with
      | Raise e => Some (Raise e, s)
      | Ok reset_resp =>
          let s1 := serial_write reset_cmd s in
          let s2 := time_sleep s1 in
          let (_, s3) := serial_read (List.length reset_resp) s2 in
          init_loop fuel reset_cmd reset_resp 0 s3
      end
  end.

(** 256 iterations are all the loop can make. *)
Definition init : T -> option (result unit * T) := init_fuel 256.

(** Turns on/off an LED. *)
Definition led_set (led state : Z) : M T unit :=
  if negb (existsb (Z.eqb led) [LED1; LED2])
  then raise (Exception msg_led)
  else
    payload <- lift (pack [fB; fB; fB]
                       [aInt (CMD_LED_SET cmd_defs); aInt led; aInt state]) ;;
    cmd <- lift (_make_cmd (CMD_TYPE_LED cmd_defs) (Some payload)) ;;
    write cmd ;;;
    _get_resp ;;;
    ret tt.

(** The register address of the I2C methods: an [int] is converted,
    anything else is used as it is. *)
Definition reg_addr_bytes (reg_addr : obj) : result bytes :=
  match reg_addr with
  | Int n => to_bytes n (Z.max 1 ((bit_length n + 7) / 8))
  | Bytes b => Ok b
  end.

(** Reads registers over I2C. *)
Definition i2c_read (dev_addr : Z) (reg_addr : obj) (length : Z) : M T bytes :=
  reg_addr <- lift (reg_addr_bytes reg_addr) ;;
  let reg_addr_len := List.length reg_addr in
  if (4 <? Z.of_nat reg_addr_len)
  then raise (Exception msg_reg_addr)
  else if (length <? 0) || (255 <? length)
  then raise (Exception msg_read_len)
  else
    payload <- lift (pack [fB; fB; fB; fs reg_addr_len; fB]
                       [aInt (CMD_I2C_READ cmd_defs); aInt dev_addr;
                        aInt (Z.of_nat reg_addr_len); aBytes reg_addr;
                        aInt length]) ;;
    cmd <- lift (_make_cmd (CMD_TYPE_I2C cmd_defs) (Some payload)) ;;
    write cmd ;;;
    _get_resp.

(** Writes registers over I2C. *)
Definition i2c_write (dev_addr : Z) (reg_addr : obj) (data : bytes) : M T unit :=
  reg_addr <- lift (reg_addr_bytes reg_addr) ;;
  let reg_addr_len := List.length reg_addr in
  let data_len := List.length data in
  if (4 <? Z.of_nat reg_addr_len)
  then raise (Exception msg_reg_addr)
  else if (255 <? Z.of_nat data_len)
  then raise (Exception msg_write_len)
  else
    payload <- lift (pack [fB; fB; fB; fs reg_addr_len; fB; fs data_len]
                       [aInt (CMD_I2C_WRITE cmd_defs); aInt dev_addr;
                        aInt (Z.of_nat reg_addr_len); aBytes reg_addr;
                        aInt (Z.of_nat data_len); aBytes data]) ;;
    cmd <- lift (_make_cmd (CMD_TYPE_I2C cmd_defs) (Some payload)) ;;
    write cmd ;;;
    _get_resp ;;;
    ret tt.

End Driver.

(** Some catalogue, to run the driver on concrete inputs; the values are
    arbitrary and every theorem is stated for all catalogues. *)
Definition sample_defs : commands_def := {|
  CMD_TYPE_RESET := 0;
  CMD_TYPE_LED := 3;
  CMD_TYPE_I2C := 5;
  CMD_RESP_OK := 1;
  CMD_RESP_RESET := 2;
  CMD_LED_SET := 1;
  CMD_I2C_READ := 2;
  CMD_I2C_WRITE := 3
|}.

Definition fresh (input : bytes) : port := {| rx := input; log := [] |}.

(** The four kinds of failure the driver reports by itself, and how a
    caller tells them apart: by the text of the [Exception]. *)
Inductive error_kind :=
| InvalidArgument
| ChecksumError
| ProtocolError
| ResetFailure.

Definition kind_of (e : exn) : option error_kind :=
  match e with
  | Exception msg =>
      if String.prefix "CRC error" msg then Some ChecksumError
      else if String.prefix "Response != OK" msg then Some ProtocolError
      else if String.eqb msg msg_reset then Some ResetFailure
      else if existsb (String.eqb msg)
                [msg_led; msg_reg_addr; msg_read_len; msg_write_len;
                 msg_i2c_clock; msg_spi_clock; msg_spi_mode; msg_spi_len]
      then Some InvalidArgument
      else None
  | _ => None
  end.

(** Reading the values back out of a message, as a caller that catches
    the exception can: [int(c, 16)] for one lower-case digit, the
    hexadecimal number a text starts with, the pairs of digits a text
    starts with ([binascii.unhexlify]), a fixed text in front. *)
Definition hex_digit (c : ascii) : option N :=
  let code := N_of_ascii c in
  if ((48 <=? code) && (code <=? 57))%N then Some (code - 48)%N
  else if ((97 <=? code) && (code <=? 102))%N then Some (code - 87)%N
  else None.

Fixpoint read_hex (acc : N) (s : string) : N * string :=
  match s with
  | String c s' =>
      match hex_digit c with
      | Some v => read_hex (acc * 16 + v) s'
      | None => (acc, s)
      end
  | EmptyString => (acc, s)
  end.

Fixpoint read_hexlify (s : string) : bytes * string :=
  match s with
  | String a (String b s') =>
      match hex_digit a, hex_digit b with
      | Some h, Some l =>
          let (rest_bytes, rest) := read_hexlify s' in
          (byte_of_N (h * 16 + l) :: rest_bytes, rest)
      | _, _ => ([], s)
      end
  | _ => ([], s)
  end.

Fixpoint strip_prefix (pre s : string) : option string :=
  match pre, s with
  | EmptyString, _ => Some s
  | String a pre', String b s' =>
      if Ascii.eqb a b then strip_prefix pre' s' else None
  | String _ _, EmptyString => None
  end.

(** The computed and the received checksum in the text of a CRC error. *)
Definition crc_error_values (msg : string) : option (Z * Z) :=
  match strip_prefix "CRC error (expected 0x" msg with
  | Some s =>
      let (calc, s1) := read_hex 0 s in
      match strip_prefix ", got 0x" s1 with
      | Some s2 =>
          let (received, s3) := read_hex 0 s2 in
          if String.eqb s3 ")" then Some (Z.of_N calc, Z.of_N received)
          else None
      | None => None
      end
  | None => None
  end.

(** The status and the payload in the text of a response error. *)
Definition resp_error_values (msg : string) : option (Z * bytes) :=
  match strip_prefix "Response != OK: response = 0x" msg with
  | Some s =>
      let (status, s1) := read_hex 0 s in
      match strip_prefix (", data = " ++ String dquote EmptyString) s1 with
      | Some s2 =>
          let (payload, s3) := read_hexlify s2 in
          if String.eqb s3 (String dquote EmptyString)
          then Some (Z.of_N status, payload)
          else None
      | None => None
      end
  | None => None
  end.

(** What one unsuccessful round of the handshake does to the host: a
    read of [n] bytes, the reset command sent again, the pause. *)
Definition failed_attempt {T : Type} `{Host T} (reset_cmd : bytes) (n : nat)
    (s : T) : T :=
  time_sleep (serial_write reset_cmd (snd (serial_read n s))).

(** The outcome of decoding a response body in the words of the frame
    format: status byte first, received checksum last, payload in
    between, checksum computed over everything but the last byte. *)
Definition decode_body (d : commands_def) (body : bytes) : result bytes :=
  let status := int_of_byte (hd x00 body) in
  let received := int_of_byte (last body x00) in
  let calc := _crc (Bytes (removelast body)) in
  let payload := removelast (tl body) in
  if negb (received =? calc) then Raise (Exception (msg_crc calc received))
  else if negb (status =? CMD_RESP_OK d)
  then Raise (Exception (msg_resp status payload))
  else Ok payload.

(** [int.from_bytes(b, 'big')]. *)
Definition from_bytes (b : bytes) : Z :=
  fold_left (fun acc x => acc * 256 + int_of_byte x) b 0.

(** ** The rest of the class

    The remaining constants of [commands_def], next to the ones above. *)

Record commands_def_full := {
  core_defs :> commands_def;
  CMD_TYPE_UART : Z;
  CMD_TYPE_LCD : Z;
  CMD_TYPE_BTN : Z;
  CMD_TYPE_SPI : Z;
  CMD_LCD_CLEAR : Z;
  CMD_LCD_REFRESH : Z;
  CMD_LCD_PIXEL : Z;
  CMD_LED_BLINK : Z;
  CMD_I2C_CLOCK : Z;
  CMD_SPI_CONFIG : Z;
  CMD_SPI_TRANSFER : Z
}.

Section Commands.

Context {T : Type} `{Host T}.
Variable cmd_defs : commands_def_full.

(** Transfers data over UART. *)
Definition uart_transfer (data : option bytes) : M T bytes :=
  cmd <- lift (_make_cmd (CMD_TYPE_UART cmd_defs) data) ;;
  write cmd ;;;
  _get_resp cmd_defs.

(** Clears the display buffer. *)
Definition lcd_clear : M T unit :=
  payload <- lift (pack [fB] [aInt (CMD_LCD_CLEAR cmd_defs)]) ;;
  cmd <- lift (_make_cmd (CMD_TYPE_LCD cmd_defs) (Some payload)) ;;
  write cmd ;;;
  _get_resp cmd_defs ;;;
  ret tt.

(** Redraws the display buffer. *)
Definition lcd_refresh : M T unit :=
  payload <- lift (pack [fB] [aInt (CMD_LCD_REFRESH cmd_defs)]) ;;
  cmd <- lift (_make_cmd (CMD_TYPE_LCD cmd_defs) (Some payload)) ;;
  write cmd ;;;
  _get_resp cmd_defs ;;;
  ret tt.

(** Draws a pixel in the display buffer. *)
Definition lcd_pixel (x y color : Z) : M T unit :=
  payload <- lift (pack [fB; fB; fB; fB]
                     [aInt (CMD_LCD_PIXEL cmd_defs); aInt x; aInt y;
                      aInt color]) ;;
  cmd <- lift (_make_cmd (CMD_TYPE_LCD cmd_defs) (Some payload)) ;;
  write cmd ;;;
  _get_resp cmd_defs ;;;
  ret tt.

(** Keeps blinking an LED. *)
Definition led_blink (led period : Z) : M T unit :=
  if negb (existsb (Z.eqb led) [LED1; LED2])
  then raise (Exception msg_led)
  else
    payload <- lift (pack [fB; fB; fB]
                       [aInt (CMD_LED_BLINK cmd_defs); aInt led; aInt period]) ;;
    cmd <- lift (_make_cmd (CMD_TYPE_LED cmd_defs) (Some payload)) ;;
    write cmd ;;;
    _get_resp cmd_defs ;;;
    ret tt.

(** Returns the button state. *)
Definition buttons : M T Z :=
  cmd <- lift (_make_cmd (CMD_TYPE_BTN cmd_defs) None) ;;
  write cmd ;;;
  resp <- _get_resp cmd_defs ;;
  lift (index resp 0).

(** Reconfigures I2C clock frequency. *)
Definition i2c_set_clock_khz (clock_khz : Z) : M T bytes :=
  if (clock_khz <? 1) || (400 <? clock_khz)
  then raise (Exception msg_i2c_clock)
  else
    payload <- lift (pack [fB; fH]
                       [aInt (CMD_I2C_CLOCK cmd_defs); aInt clock_khz]) ;;
    cmd <- lift (_make_cmd (CMD_TYPE_I2C cmd_defs) (Some payload)) ;;
    write cmd ;;;
    _get_resp cmd_defs.

(** Configures the SPI peripheral. *)
Definition spi_config (clock_khz mode : Z) : M T unit :=
  if (clock_khz <? 1) || (60000 <? clock_khz)
  then raise (Exception msg_spi_clock)
  else if (mode <? 0) || (3 <? mode)
  then raise (Exception msg_spi_mode)
  else
    payload <- lift (pack [fB; fH; fB]
                       [aInt (CMD_SPI_CONFIG cmd_defs); aInt clock_khz;
                        aInt mode]) ;;
    cmd <- lift (_make_cmd (CMD_TYPE_SPI cmd_defs) (Some payload)) ;;
    write cmd ;;;
    _get_resp cmd_defs ;;;
    ret tt.

(** Transfers data over SPI. *)
Definition spi_transfer (data_in : bytes) : M T bytes :=
  let data_in_len := List.length data_in in
  if (Z.of_nat data_in_len <? 0) || (255 <? Z.of_nat data_in_len)
  then raise (Exception msg_spi_len)
  else
    payload <- lift (pack [fB; fB; fs data_in_len]
                       [aInt (CMD_SPI_TRANSFER cmd_defs);
                        aInt (Z.of_nat data_in_len); aBytes data_in]) ;;
    cmd <- lift (_make_cmd (CMD_TYPE_SPI cmd_defs) (Some payload)) ;;
    write cmd ;;;
    _get_resp cmd_defs.

End Commands.

Definition sample_full : commands_def_full := {|
  core_defs := sample_defs;
  CMD_TYPE_UART := 1;
  CMD_TYPE_LCD := 2;
  CMD_TYPE_BTN := 4;
  CMD_TYPE_SPI := 6;
  CMD_LCD_CLEAR := 0;
  CMD_LCD_REFRESH := 1;
  CMD_LCD_PIXEL := 2;
  CMD_LED_BLINK := 2;
  CMD_I2C_CLOCK := 1;
  CMD_SPI_CONFIG := 0;
  CMD_SPI_TRANSFER := 1
|}.

(** The frame around a payload, byte by byte: the length of group byte
    and payload, the group byte, the payload, the XOR of group byte and
    payload. *)
Definition frame_of (group : byte) (payload : bytes) : bytes :=
  byte_of_N (N.of_nat (S (List.length payload)))
  :: group :: payload
  ++ [byte_of_N (Z.to_N (_crc (Bytes (group :: payload))))].

(** A method body that sends nothing, whatever the port holds. *)
Definition sends_nothing {A : Type} (m : M port A) : Prop :=
  forall p, written (log (snd (m p))) = written (log p).

(** ** Bytes and integers *)

Lemma int_of_byte_range (b : byte) : 0 <= int_of_byte b <= 255.
Proof.
  unfold int_of_byte. pose proof (Byte.to_N_bounded b). lia.
Qed.

Lemma byte_of_N_to_N (b : byte) : byte_of_N (Byte.to_N b) = b.
Proof.
  unfold byte_of_N. pose proof (Byte.to_N_bounded b).
  rewrite N.mod_small by lia. now rewrite Byte.of_to_N.
Qed.

Lemma to_N_byte_of_N (n : N) : Byte.to_N (byte_of_N n) = (n mod 256)%N.
Proof.
  unfold byte_of_N. destruct (Byte.of_N (n mod 256)) eqn:E.
  - now apply Byte.to_of_N.
  - apply Byte.of_N_None_iff in E.
    pose proof (N.mod_upper_bound n 256). lia.
Qed.

Lemma byte_of_Z_int_of_byte (b : byte) : byte_of_Z (int_of_byte b) = Some b.
Proof.
  unfold byte_of_Z. pose proof (int_of_byte_range b).
  replace ((0 <=? int_of_byte b) && (int_of_byte b <=? 255)) with true
    by (symmetry; apply andb_true_iff; split; apply Z.leb_le; lia).
  unfold int_of_byte. now rewrite N2Z.id, byte_of_N_to_N.
Qed.

Lemma byte_of_Z_Some (z : Z) (b : byte) :
  byte_of_Z z = Some b -> int_of_byte b = z.
Proof.
  unfold byte_of_Z. destruct ((0 <=? z) && (z <=? 255)) eqn:E; [|discriminate].
  apply andb_true_iff in E as [E1 E2]. apply Z.leb_le in E1, E2.
  intros [= <-]. unfold int_of_byte. rewrite to_N_byte_of_N.
  rewrite N.mod_small by lia. lia.
Qed.

Lemma byte_of_Z_is_byte (z : Z) :
  is_byte z -> exists b, byte_of_Z z = Some b /\ int_of_byte b = z.
Proof.
  intros [H0 H1]. unfold byte_of_Z.
  replace ((0 <=? z) && (z <=? 255)) with true
    by (symmetry; apply andb_true_iff; split; apply Z.leb_le; lia).
  eexists; split; [reflexivity|].
  unfold int_of_byte. rewrite to_N_byte_of_N, N.mod_small by lia. lia.
Qed.

Lemma byte_of_Z_None (z : Z) : ~ is_byte z -> byte_of_Z z = None.
Proof.
  unfold is_byte, byte_of_Z. intros Hz.
  destruct ((0 <=? z) && (z <=? 255)) eqn:E; [|reflexivity].
  apply andb_true_iff in E as [E1 E2]. apply Z.leb_le in E1, E2. lia.
Qed.

Lemma bytes_eqb_eq (a b : bytes) : bytes_eqb a b = true <-> a = b.
Proof.
  unfold bytes_eqb. destruct (list_eq_dec _ a b); split; congruence.
Qed.

Lemma bytes_eqb_neq (a b : bytes) : bytes_eqb a b = false <-> a <> b.
Proof.
  unfold bytes_eqb. destruct (list_eq_dec _ a b); split; congruence.
Qed.

(** ** The checksum *)

Lemma lxor_byte (a b : Z) : is_byte a -> is_byte b -> is_byte (Z.lxor a b).
Proof.
  unfold is_byte. intros Ha Hb.
  assert (H0 : 0 <= Z.lxor a b) by (apply Z.lxor_nonneg; lia).
  split; [exact H0|].
  destruct (Z.eq_dec (Z.lxor a b) 0) as [->|Hn]; [lia|].
  assert (Z.lxor a b < 2 ^ 8); [|lia].
  apply Z.log2_lt_pow2; [lia|].
  pose proof (Z.log2_lxor a b ltac:(lia) ltac:(lia)) as Hl.
  assert (Hla : Z.log2 a < 8).
  { destruct (Z.eq_dec a 0) as [->|]; [cbn; lia|].
    apply Z.log2_lt_pow2; lia. }
  assert (Hlb : Z.log2 b < 8).
  { destruct (Z.eq_dec b 0) as [->|]; [cbn; lia|].
    apply Z.log2_lt_pow2; lia. }
  lia.
Qed.

Lemma crc_fold_byte (l : bytes) (a : Z) :
  is_byte a -> is_byte (fold_left xor_step l a).
Proof.
  revert a. induction l as [|c l IH]; intros a Ha; cbn [fold_left]; [exact Ha|].
  apply IH, lxor_byte; [exact Ha|apply int_of_byte_range].
Qed.

Lemma crc_bytes_byte (l : bytes) : is_byte (_crc (Bytes l)).
Proof. apply crc_fold_byte. unfold is_byte. lia. Qed.

Lemma crc_fold_acc (l : bytes) (a : Z) :
  fold_left xor_step l a = Z.lxor a (fold_left xor_step l 0).
Proof.
  revert a. induction l as [|c l IH]; intros a; cbn [fold_left].
  - now rewrite Z.lxor_0_r.
  - rewrite (IH (xor_step a c)), (IH (xor_step 0 c)). unfold xor_step.
    now rewrite Z.lxor_0_l, Z.lxor_assoc.
Qed.

Lemma crc_cons (c : byte) (l : bytes) :
  _crc (Bytes (c :: l)) = Z.lxor (int_of_byte c) (_crc (Bytes l)).
Proof.
  unfold _crc. cbn [fold_left]. rewrite crc_fold_acc.
  unfold xor_step at 1. now rewrite Z.lxor_0_l.
Qed.

Lemma crc_permutation (l l' : bytes) :
  Permutation l l' -> _crc (Bytes l) = _crc (Bytes l').
Proof.
  induction 1 as [|x l l' _ IH|x y l|l l' l'' _ IH1 _ IH2].
  - reflexivity.
  - now rewrite !crc_cons, IH.
  - rewrite !crc_cons, <- !Z.lxor_assoc. f_equal. apply Z.lxor_comm.
  - congruence.
Qed.

(** The two-byte instance: [_crc([a, b]) == _crc([b, a])]. *)
Lemma crc_swap (a b : byte) : _crc (Bytes [a; b]) = _crc (Bytes [b; a]).
Proof. apply crc_permutation, perm_swap. Qed.

(** C7. The checksum does not depend on the order of the bytes: two
    sequences that are permutations of each other have the same [_crc];
    in particular [_crc([a, b])] equals [_crc([b, a])] for all bytes. *)
Theorem crc_order_independent (l l' : bytes) :
  Permutation l l' ->
  _crc (Bytes l) = _crc (Bytes l') /\
  (forall a b : byte, _crc (Bytes [a; b]) = _crc (Bytes [b; a])).
Proof.
  intros P. split; [now apply crc_permutation|apply crc_swap].
Qed.

Lemma crc_order_independent_witness :
  Permutation [x12; xa5; x7f] [x7f; x12; xa5] /\
  _crc (Bytes [x12; xa5; x7f]) = _crc (Bytes [x7f; x12; xa5]).
Proof.
  assert (P : Permutation [x12; xa5; x7f] [x7f; x12; xa5]).
  { apply Permutation_sym. apply (Permutation_cons_app [x12; xa5] []).
    apply Permutation_refl. }
  split; [exact P|exact (proj1 (crc_order_independent _ _ P))].
Defined.

Lemma crc_int_and_singleton (b : byte) :
  _crc (Int (int_of_byte b)) = int_of_byte b /\
  _crc (Bytes [b]) = int_of_byte b.
Proof. split; cbn; unfold xor_step; now rewrite ?Z.lxor_0_l. Qed.

(** C8. For every byte [b], [_crc] of the scalar [b] and of the
    one-element sequence [[b]] are both [b], and [_crc] of the empty
    sequence is 0; [_crc] is a total function, it raises nothing. *)
Theorem crc_scalar_singleton_empty (b : byte) :
  _crc (Int (int_of_byte b)) = int_of_byte b /\
  _crc (Bytes [b]) = int_of_byte b /\
  _crc (Bytes [b]) = _crc (Int (int_of_byte b)) /\
  _crc (Bytes []) = 0.
Proof.
  repeat split; cbn; now rewrite ?Z.lxor_0_l.
Qed.

(** ** The frame encoders *)

Lemma pack_BBB (a b c : Z) (x y z : byte) :
  byte_of_Z a = Some x -> byte_of_Z b = Some y -> byte_of_Z c = Some z ->
  pack [fB; fB; fB] [aInt a; aInt b; aInt c] = Ok [x; y; z].
Proof. intros Ha Hb Hc. cbn. now rewrite Ha, Hb, Hc. Qed.

Lemma pack_B (a : Z) (x : byte) :
  byte_of_Z a = Some x -> pack [fB] [aInt a] = Ok [x].
Proof. intros Ha. cbn. now rewrite Ha. Qed.

Lemma make_resp_make_cmd (resp : Z) : _make_resp resp = _make_cmd resp None.
Proof. reflexivity. Qed.

(** C10. For every byte [b] the verification frame [_make_resp(b)] and
    the command frame [_make_cmd(b)] without payload are the same three
    bytes [[1, b, b]]. *)
Theorem make_resp_is_bare_make_cmd (b : byte) :
  _make_resp (int_of_byte b) = Ok [x01; b; b] /\
  _make_cmd (int_of_byte b) None = Ok [x01; b; b] /\
  _crc (Int (int_of_byte b)) = int_of_byte b.
Proof.
  repeat split; try reflexivity;
    apply pack_BBB; try reflexivity; apply byte_of_Z_int_of_byte.
Qed.

(** ** Indexing and slicing *)

Lemma index_first (x : byte) (l : bytes) : index (x :: l) 0 = Ok (int_of_byte x).
Proof.
  unfold index. cbn [Z.ltb Z.compare].
  replace ((0 <=? 0) && (0 <? Z.of_nat (List.length (x :: l)))) with true;
    [reflexivity|].
  symmetry. apply andb_true_iff. split; [reflexivity|].
  apply Z.ltb_lt. cbn [List.length]. lia.
Qed.

Lemma index_last (b : bytes) :
  b <> [] -> index b (-1) = Ok (int_of_byte (last b x00)).
Proof.
  intros Hb. unfold index. cbn [Z.ltb Z.compare].
  assert (Hl : (0 < List.length b)%nat) by (destruct b; [congruence|cbn; lia]).
  replace ((0 <=? Z.of_nat (List.length b) + -1) &&
           (Z.of_nat (List.length b) + -1 <? Z.of_nat (List.length b)))
    with true
    by (symmetry; apply andb_true_iff; split;
        [apply Z.leb_le|apply Z.ltb_lt]; lia).
  replace (Z.to_nat (Z.of_nat (List.length b) + -1))
    with (List.length b - 1)%nat by lia.
  destruct (exists_last Hb) as (l & x & ->).
  rewrite last_last, length_app. cbn [List.length].
  replace (List.length l + 1 - 1)%nat with (List.length l) by lia.
  rewrite nth_error_app2 by lia. now rewrite Nat.sub_diag.
Qed.

Lemma slice_to_last (b : bytes) (i : nat) :
  (i <= 1)%nat ->
  slice b (Z.of_nat i) (-1) = removelast (skipn i b).
Proof.
  intros Hi. unfold slice, clamp.
  replace (Z.of_nat i <? 0) with false by (symmetry; apply Z.ltb_ge; lia).
  cbn [Z.ltb Z.compare].
  set (n := List.length b).
  destruct (Nat.le_gt_cases n i) as [Hle|Hgt].
  - replace (Z.to_nat (Z.max 0 (Z.of_nat n + -1)) -
             Z.to_nat (Z.min (Z.of_nat i) (Z.of_nat n)))%nat with O by lia.
    cbn [firstn]. rewrite skipn_all2 by (fold n; lia).
    + reflexivity.
  - replace (Z.to_nat (Z.min (Z.of_nat i) (Z.of_nat n))) with i by lia.
    rewrite removelast_firstn_len, length_skipn. fold n.
    f_equal. lia.
Qed.

Lemma slice_body (b : bytes) : slice b 0 (-1) = removelast b.
Proof. change 0 with (Z.of_nat 0). now rewrite (slice_to_last b 0) by lia. Qed.

Lemma slice_payload (b : bytes) : slice b 1 (-1) = removelast (tl b).
Proof.
  change 1 with (Z.of_nat 1). rewrite (slice_to_last b 1) by lia.
  now destruct b.
Qed.

Lemma reads_app (l l' : list event) : reads (l ++ l') = (reads l + reads l')%nat.
Proof.
  induction l as [|[] l IH]; cbn [reads app Nat.add]; congruence.
Qed.

Lemma written_app (l l' : list event) :
  written (l ++ l') = written l ++ written l'.
Proof.
  induction l as [|[] l IH]; cbn [written app]; congruence.
Qed.

(** ** The response decoder *)

Section Decoder.

Context {T : Type} `{Host T}.
Variable d : commands_def.

(** One run of [_get_resp] on a host whose two reads deliver the length
    byte and a non-empty body. *)
Lemma get_resp_outcome (s s1 s2 : T) (len : byte) (body : bytes) :
  serial_read 1 s = ([len], s1) ->
  serial_read (Z.to_nat (int_of_byte len + 1)) s1 = (body, s2) ->
  body <> [] ->
  _get_resp d s = (decode_body d body, s2).
Proof.
  intros R1 R2 Hb. unfold _get_resp, bind, read, lift.
  change (Z.to_nat 1) with 1%nat. rewrite R1.
  rewrite index_first. rewrite R2.
  destruct body as [|st body']; [congruence|].
  rewrite index_first, (index_last (st :: body')) by congruence.
  rewrite slice_body, slice_payload. unfold decode_body.
  cbn [hd tl].
  destruct (negb (_ =? _)); [reflexivity|].
  destruct (negb (_ =? _)); reflexivity.
Qed.

End Decoder.

Lemma port_read (n : nat) (a b : bytes) (lg : list event) :
  List.length a = n ->
  serial_read n {| rx := a ++ b; log := lg |} =
  (a, {| rx := b; log := lg ++ [EvRead n a] |}).
Proof.
  intros <-. cbn.
  rewrite firstn_app, skipn_app, firstn_all, skipn_all, Nat.sub_diag.
  cbn. now rewrite app_nil_r.
Qed.

(** What the messages carry *)

Lemma strip_prefix_app (pre s : string) :
  strip_prefix pre (pre ++ s) = Some s.
Proof.
  induction pre as [|a pre IH]; cbn; [now destruct s|].
  now rewrite Ascii.eqb_refl.
Qed.

Lemma append_assoc (a b c : string) : ((a ++ b) ++ c = a ++ (b ++ c))%string.
Proof. induction a as [|x a IH]; cbn; [reflexivity|now rewrite IH]. Qed.

Lemma read_hex_byte_comma (b : byte) (t : string) :
  read_hex 0 (hex (Byte.to_N b) ++ String "," t) = (Byte.to_N b, String "," t).
Proof. destruct b; reflexivity. Qed.

Lemma read_hex_byte_paren (b : byte) :
  read_hex 0 (hex (Byte.to_N b) ++ ")") = (Byte.to_N b, ")"%string).
Proof. destruct b; reflexivity. Qed.

Lemma read_hex_byte2_comma (b : byte) (t : string) :
  read_hex 0 (pad2 (hex (Byte.to_N b)) ++ String "," t) =
  (Byte.to_N b, String "," t).
Proof. destruct b; reflexivity. Qed.

Lemma read_hexlify_byte (b : byte) (s : string) :
  read_hexlify (pad2 (hex (Byte.to_N b)) ++ s) =
  (b :: fst (read_hexlify s), snd (read_hexlify s)).
Proof. destruct b; cbn; now destruct (read_hexlify s). Qed.

Lemma read_hexlify_hexlify (payload : bytes) (t : string) :
  read_hexlify (hexlify payload ++ String dquote t) = (payload, String dquote t).
Proof.
  induction payload as [|x payload IH].
  - cbn. now destruct t.
  - cbn [hexlify]. now rewrite append_assoc, read_hexlify_byte, IH.
Qed.

Lemma fmt_x_byte (b : byte) : fmt_x (int_of_byte b) = hex (Byte.to_N b).
Proof.
  unfold fmt_x. pose proof (int_of_byte_range b).
  replace (int_of_byte b <? 0) with false by (symmetry; apply Z.ltb_ge; lia).
  unfold int_of_byte. now rewrite Zabs2N.id.
Qed.

Lemma fmt_2x_byte (b : byte) : fmt_2x (int_of_byte b) = pad2 (hex (Byte.to_N b)).
Proof.
  unfold fmt_2x. pose proof (int_of_byte_range b).
  replace (int_of_byte b <? 0) with false by (symmetry; apply Z.ltb_ge; lia).
  unfold int_of_byte. now rewrite Zabs2N.id.
Qed.

(** Both checksums can be read back from the text of the CRC error. *)
Lemma crc_error_carries_values (calc received : byte) :
  crc_error_values (msg_crc (int_of_byte calc) (int_of_byte received)) =
  Some (int_of_byte calc, int_of_byte received).
Proof.
  unfold crc_error_values, msg_crc. rewrite strip_prefix_app, !fmt_x_byte.
  change (", got 0x" ++ hex (Byte.to_N received) ++ ")")%string
    with (String "," (" got 0x" ++ hex (Byte.to_N received) ++ ")")%string).
  rewrite read_hex_byte_comma.
  change (String "," (" got 0x" ++ hex (Byte.to_N received) ++ ")")%string)
    with (", got 0x" ++ hex (Byte.to_N received) ++ ")")%string.
  rewrite strip_prefix_app, read_hex_byte_paren. reflexivity.
Qed.

(** Status and payload can be read back from the text of the response
    error. *)
Lemma resp_error_carries_values (status : byte) (payload : bytes) :
  resp_error_values (msg_resp (int_of_byte status) payload) =
  Some (int_of_byte status, payload).
Proof.
  unfold resp_error_values, msg_resp. rewrite strip_prefix_app, fmt_2x_byte.
  change (", data = " ++
          String dquote (hexlify payload ++ String dquote EmptyString))%string
    with (String "," (" data = " ++
          String dquote (hexlify payload ++ String dquote EmptyString))%string).
  rewrite read_hex_byte2_comma.
  change (String "," (" data = " ++
          String dquote (hexlify payload ++ String dquote EmptyString))%string)
    with ((", data = " ++ String dquote EmptyString) ++
          (hexlify payload ++ String dquote EmptyString))%string.
  rewrite strip_prefix_app, read_hexlify_hexlify. reflexivity.
Qed.

Lemma get_resp_port (d : commands_def) (len : byte) (body rest : bytes)
    (lg : list event) :
  List.length body = Z.to_nat (int_of_byte len + 1) ->
  _get_resp d {| rx := len :: body ++ rest; log := lg |} =
  (decode_body d body,
   {| rx := rest;
      log := lg ++ [EvRead 1 [len];
                    EvRead (Z.to_nat (int_of_byte len + 1)) body] |}).
Proof.
  intros Hlen.
  assert (Hb : body <> []).
  { pose proof (int_of_byte_range len).
    destruct body; [cbn in Hlen; lia|congruence]. }
  eapply get_resp_outcome; [| |exact Hb].
  - apply (port_read 1 [len] (body ++ rest) lg). reflexivity.
  - rewrite (port_read _ body rest _ Hlen). now rewrite <- app_assoc.
Qed.

(** C1. On a stream that starts with a length byte [len] followed by
    [len + 1] body bytes, [_get_resp] reads exactly those two pieces and
    - returns the payload (the body without its first and last byte)
      exactly when the XOR of all body bytes but the last equals the
      last byte and the first byte is the OK code;
    - raises the CRC error whenever the checksums differ, whatever the
      status is, and the computed and the received value can both be
      read back from its message;
    - raises the response error when the checksums agree and the status
      is not OK, and the status and the payload can both be read back
      from its message. *)
Theorem get_resp_decodes (d : commands_def) (len : byte)
    (body rest : bytes) (lg : list event) :
  List.length body = Z.to_nat (int_of_byte len + 1) ->
  let status := int_of_byte (hd x00 body) in
  let received := int_of_byte (last body x00) in
  let calc := _crc (Bytes (removelast body)) in
  let payload := removelast (tl body) in
  let r := _get_resp d {| rx := len :: body ++ rest; log := lg |} in
  snd r = {| rx := rest;
             log := lg ++ [EvRead 1 [len];
                           EvRead (Z.to_nat (int_of_byte len + 1)) body] |} /\
  (calc = received -> status = CMD_RESP_OK d -> fst r = Ok payload) /\
  (forall x, fst r = Ok x ->
             x = payload /\ calc = received /\ status = CMD_RESP_OK d) /\
  (calc <> received -> fst r = Raise (Exception (msg_crc calc received))) /\
  (calc = received -> status <> CMD_RESP_OK d ->
   fst r = Raise (Exception (msg_resp status payload))) /\
  crc_error_values (msg_crc calc received) = Some (calc, received) /\
  resp_error_values (msg_resp status payload) = Some (status, payload).
Proof.
  intros Hlen status received calc payload r.
  assert (Hr : r = (decode_body d body,
                    {| rx := rest;
                       log := lg ++ [EvRead 1 [len];
                                     EvRead (Z.to_nat (int_of_byte len + 1)) body] |}))
    by (subst r; now apply get_resp_port).
  rewrite Hr. cbn [fst snd]. unfold decode_body.
  fold status received calc payload.
  assert (Hcalc : exists cb, int_of_byte cb = calc)
    by (destruct (byte_of_Z_is_byte _ (crc_bytes_byte (removelast body)))
          as (cb & _ & E); now exists cb).
  destruct Hcalc as (cb & Hcb).
  destruct (Z.eqb_spec received calc) as [Ec|Ec];
    destruct (Z.eqb_spec status (CMD_RESP_OK d)) as [Es|Es]; cbn [negb];
    repeat split; try congruence; intros; try congruence;
    try (rewrite <- Hcb; apply crc_error_carries_values);
    apply resp_error_carries_values.
Qed.

Lemma get_resp_decodes_witness :
  List.length [x01; x07; x06] = Z.to_nat (int_of_byte x02 + 1) /\
  fst (_get_resp sample_defs (fresh [x02; x01; x07; x06; xff])) = Ok [x07] /\
  fst (_get_resp sample_defs (fresh [x02; x01; x07; x05; xff])) =
  Raise (Exception "CRC error (expected 0x6, got 0x5)") /\
  crc_error_values "CRC error (expected 0x6, got 0x5)" = Some (6, 5).
Proof.
  pose proof (get_resp_decodes sample_defs x02 [x01; x07; x06] [xff] []
                eq_refl) as W.
  pose proof (get_resp_decodes sample_defs x02 [x01; x07; x05] [xff] []
                eq_refl) as W'.
  cbv zeta in W, W'.
  destruct W as (_ & Hok & _).
  destruct W' as (_ & _ & _ & Hcrc & _ & Hval & _).
  split; [reflexivity|]. split; [apply Hok; reflexivity|].
  split; [apply Hcrc; discriminate|exact Hval].
Defined.

(** ** Encoding then decoding *)

Lemma pack1_s_exact (b : bytes) : pack1 (fs (List.length b)) (aBytes b) = Ok b.
Proof.
  cbn. now rewrite firstn_all, Nat.sub_diag, app_nil_r.
Qed.

Lemma pack_B_s (cmd : Z) (data : bytes) :
  pack [fB; fs (List.length data)] [aInt cmd; aBytes data] =
  match byte_of_Z cmd with
  | Some c => Ok (c :: data)
  | None => Raise StructError
  end.
Proof.
  cbn [pack]. rewrite pack1_s_exact. unfold pack1.
  destruct (byte_of_Z cmd); cbn [rbind app]; [|reflexivity].
  now rewrite app_nil_r.
Qed.

Lemma pack_B_s_B (n x : Z) (b : bytes) :
  pack [fB; fs (List.length b); fB] [aInt n; aBytes b; aInt x] =
  match byte_of_Z n, byte_of_Z x with
  | Some k, Some y => Ok (k :: b ++ [y])
  | _, _ => Raise StructError
  end.
Proof.
  cbn [pack]. rewrite pack1_s_exact. unfold pack1.
  destruct (byte_of_Z n), (byte_of_Z x); cbn [rbind app]; reflexivity.
Qed.

(** [_make_cmd] with a payload, one [struct.pack] at a time. *)
Lemma make_cmd_unfold (cmd : Z) (data : bytes) :
  _make_cmd cmd (Some data) =
  match byte_of_Z cmd with
  | Some c =>
      match byte_of_Z (Z.of_nat (S (List.length data))),
            byte_of_Z (_crc (Bytes (c :: data))) with
      | Some k, Some x => Ok (k :: (c :: data) ++ [x])
      | _, _ => Raise StructError
      end
  | None => Raise StructError
  end.
Proof.
  unfold _make_cmd. rewrite pack_B_s.
  destruct (byte_of_Z cmd) as [c|]; cbn [rbind]; [|reflexivity].
  now rewrite pack_B_s_B.
Qed.

(** The shape of every frame [_make_cmd] builds around a payload. *)
Lemma make_cmd_frame (cmd : Z) (data frame : bytes) :
  _make_cmd cmd (Some data) = Ok frame ->
  exists c k x,
    byte_of_Z cmd = Some c /\
    byte_of_Z (Z.of_nat (S (List.length data))) = Some k /\
    byte_of_Z (_crc (Bytes (c :: data))) = Some x /\
    frame = k :: (c :: data) ++ [x].
Proof.
  rewrite make_cmd_unfold.
  destruct (byte_of_Z cmd) as [c|] eqn:Ec; [|discriminate].
  destruct (byte_of_Z (Z.of_nat _)) as [k|] eqn:Ek; [|discriminate].
  destruct (byte_of_Z (_crc _)) as [x|] eqn:Ex; [|discriminate].
  intros [= <-]. now exists c, k, x.
Qed.

(** [_make_cmd] builds a frame for every command byte and every payload
    of at most 254 bytes, and only for those. *)
Lemma make_cmd_succeeds (cmd : Z) (data : bytes) :
  is_byte cmd -> (List.length data <= 254)%nat ->
  exists frame, _make_cmd cmd (Some data) = Ok frame.
Proof.
  intros Hc Hl. rewrite make_cmd_unfold.
  destruct (byte_of_Z_is_byte cmd Hc) as (c & -> & _).
  destruct (byte_of_Z_is_byte (Z.of_nat (S (List.length data))))
    as (k & -> & _); [unfold is_byte; lia|].
  cbn iota.
  destruct (byte_of_Z_is_byte _ (crc_bytes_byte (c :: data))) as (x & -> & _).
  eexists; reflexivity.
Qed.

Lemma make_cmd_too_long (cmd : Z) (data : bytes) :
  (255 <= List.length data)%nat -> _make_cmd cmd (Some data) = Raise StructError.
Proof.
  intros Hl. rewrite make_cmd_unfold.
  destruct (byte_of_Z cmd) as [c|]; [|reflexivity].
  now rewrite byte_of_Z_None by (unfold is_byte; lia).
Qed.



(** ** Commands *)

Lemma pack1_length (f : fmt) (a : arg) (b : bytes) :
  pack1 f a = Ok b -> List.length b = fmt_size f.
Proof.
  destruct f, a; cbn; try discriminate.
  - destruct (byte_of_Z z); [|discriminate]. now intros [= <-].
  - destruct ((0 <=? z) && (z <=? 65535)); [|discriminate]. now intros [= <-].
  - intros [= <-]. rewrite length_app, length_firstn, repeat_length. lia.
Qed.

Lemma pack_length (f : list fmt) (a : list arg) (b : bytes) :
  pack f a = Ok b -> List.length b = calcsize f.
Proof.
  revert a b. induction f as [|f1 f IH]; intros [|a1 a] b; cbn [pack];
    try discriminate.
  - now intros [= <-].
  - destruct (pack1 f1 a1) as [b1|] eqn:E1; cbn [rbind]; [|discriminate].
    destruct (pack f a) as [b'|] eqn:E'; cbn [rbind]; [|discriminate].
    intros [= <-]. rewrite length_app, (pack1_length _ _ _ E1), (IH _ _ E').
    reflexivity.
Qed.

Lemma pack_error (f : list fmt) (a : list arg) (e : exn) :
  pack f a = Raise e -> e = StructError.
Proof.
  revert a. induction f as [|f1 f IH]; intros [|a1 a]; cbn [pack];
    try (now intros [= <-]); try discriminate.
  destruct (pack1 f1 a1) as [b1|e1] eqn:E1; cbn [rbind].
  - destruct (pack f a) as [b'|e'] eqn:E'; cbn [rbind]; [discriminate|].
    intros [= <-]. now apply (IH a).
  - intros [= <-]. destruct f1, a1; cbn in E1; try congruence.
    + destruct (byte_of_Z z); congruence.
    + destruct ((0 <=? z) && (z <=? 65535)); congruence.
Qed.

(** [_get_resp] only reads. *)
Lemma get_resp_writes_nothing (d : commands_def) (p : port) :
  written (log (snd (_get_resp d p))) = written (log p).
Proof.
  unfold _get_resp, bind, read, lift, raise, ret. cbn [serial_read port_host].
  destruct (index _ 0) as [resp_len|]; cbn [snd log];
    [|rewrite written_app; cbn; apply app_nil_r].
  destruct (index _ 0) as [resp_type|]; cbn [snd log];
    [|rewrite !written_app; cbn; now rewrite !app_nil_r].
  destruct (index _ (-1)) as [resp_crc|]; cbn [snd log];
    [|rewrite !written_app; cbn; now rewrite !app_nil_r].
  destruct (negb _); [|destruct (negb _)]; cbn [snd log];
    rewrite !written_app; cbn; now rewrite !app_nil_r.
Qed.

(** C3 (amended). [led_set(LED1, ON)], that is LED number 0 and state 1,
    writes exactly one frame, [[4, LED group byte, LED_SET opcode, 0, 1,
    checksum]]: the leading length byte is 4, it counts the group byte
    along with the three payload bytes, and the checksum is the XOR of
    the LED group byte, the LED_SET opcode, 0 and 1. *)
Theorem led_set_LED1_ON (d : commands_def) (p : port) (t o : byte) :
  int_of_byte t = CMD_TYPE_LED d ->
  int_of_byte o = CMD_LED_SET d ->
  exists c,
    int_of_byte c =
      Z.lxor (Z.lxor (Z.lxor (int_of_byte t) (int_of_byte o)) 0) 1 /\
    written (log (snd (led_set d LED1 1 p))) =
      written (log p) ++ [[x04; t; o; x00; x01; c]].
Proof.
  intros Ht Ho.
  destruct (byte_of_Z_is_byte _ (crc_bytes_byte [t; o; x00; x01]))
    as (c & Ec & Hc).
  exists c. split.
  { rewrite Hc. unfold _crc. cbn [fold_left]. unfold xor_step.
    now rewrite Z.lxor_0_l. }
  unfold led_set. cbn [existsb LED1 LED2 Z.eqb orb negb].
  unfold bind, lift, write, ret.
  rewrite (pack_BBB _ _ _ o x00 x01)
    by (try reflexivity; rewrite <- Ho; apply byte_of_Z_int_of_byte).
  rewrite make_cmd_unfold, <- Ht, byte_of_Z_int_of_byte.
  cbn [List.length Z.of_nat Pos.of_succ_nat Pos.succ].
  change (byte_of_Z 4) with (Some x04). rewrite Ec. cbn [app].
  match goal with
  | |- context [_get_resp d ?q] =>
      pose proof (get_resp_writes_nothing d q) as W;
      destruct (_get_resp d q) as [[?|?] q']
  end; cbn [snd] in *; rewrite W; cbn [log serial_write port_host];
    now rewrite written_app.
Qed.

Lemma led_set_LED1_ON_witness :
  int_of_byte x03 = CMD_TYPE_LED sample_defs /\
  int_of_byte x01 = CMD_LED_SET sample_defs /\
  exists c,
    int_of_byte c =
      Z.lxor (Z.lxor (Z.lxor (int_of_byte x03) (int_of_byte x01)) 0) 1 /\
    written (log (snd (led_set sample_defs LED1 1 (fresh [x01; x01; x01])))) =
      written (log (fresh [x01; x01; x01])) ++ [[x04; x03; x01; x00; x01; c]].
Proof.
  split; [reflexivity|]. split; [reflexivity|].
  exact (led_set_LED1_ON sample_defs (fresh [x01; x01; x01]) x03 x01
           eq_refl eq_refl).
Defined.

(** The frame of [led_set(LED1, ON)] does not start with the length
    byte 3, whatever the other bytes are. *)
Lemma led_set_frame_length_is_not_3 :
  ~ exists t o c,
      written (log (snd (led_set sample_defs LED1 1 (fresh [])))) =
      [[x03; t; o; x00; x01; c]].
Proof.
  intros (t & o & c & E). vm_compute in E. discriminate E.
Qed.

(** [i2c_write] with 255 data bytes gets past both checks and is then
    turned down by [struct.pack]: the frame body would be longer than
    255 bytes. Nothing is written. *)
Lemma i2c_write_255 {T : Type} `{Host T} (d : commands_def) (dev_addr : Z)
    (reg_addr : obj) (ra data : bytes) (s : T) :
  reg_addr_bytes reg_addr = Ok ra -> (List.length ra <= 4)%nat ->
  List.length data = 255%nat ->
  i2c_write d dev_addr reg_addr data s = (Raise StructError, s).
Proof.
  intros Hra Hlen Hd. unfold i2c_write, bind, lift, raise. rewrite Hra.
  replace (4 <? Z.of_nat (List.length ra)) with false
    by (symmetry; apply Z.ltb_ge; lia).
  replace (255 <? Z.of_nat (List.length data)) with false
    by (symmetry; apply Z.ltb_ge; lia).
  destruct (pack _ _) as [payload|e] eqn:Ep.
  - apply pack_length in Ep. rewrite make_cmd_too_long; [reflexivity|].
    rewrite Ep. unfold calcsize. cbn. lia.
  - now rewrite (pack_error _ _ _ Ep).
Qed.

(** C5. For every device address and every register address whose
    serialized form has at most 4 bytes: with 255 data bytes [i2c_write]
    raises neither of its invalid-argument exceptions, and with 256 data
    bytes it raises the data-length exception and leaves the host
    untouched, so nothing has been written. *)
Theorem i2c_write_length_boundary {T : Type} `{Host T} (d : commands_def)
    (dev_addr : Z) (reg_addr : obj) (ra data : bytes) (s : T) :
  reg_addr_bytes reg_addr = Ok ra -> (List.length ra <= 4)%nat ->
  (List.length data = 255%nat ->
   fst (i2c_write d dev_addr reg_addr data s) <> Raise (Exception msg_write_len) /\
   fst (i2c_write d dev_addr reg_addr data s) <> Raise (Exception msg_reg_addr)) /\
  (List.length data = 256%nat ->
   i2c_write d dev_addr reg_addr data s = (Raise (Exception msg_write_len), s)).
Proof.
  intros Hra Hlen. split; intros Hd.
  - rewrite (i2c_write_255 d dev_addr reg_addr ra data s Hra Hlen Hd).
    cbn [fst]. split; discriminate.
  - unfold i2c_write, bind, lift, raise. rewrite Hra.
    replace (4 <? Z.of_nat (List.length ra)) with false
      by (symmetry; apply Z.ltb_ge; lia).
    replace (255 <? Z.of_nat (List.length data)) with true
      by (symmetry; apply Z.ltb_lt; lia).
    reflexivity.
Qed.

Lemma i2c_write_length_boundary_witness :
  reg_addr_bytes (Int 4660) = Ok [x12; x34] /\
  (List.length [x12; x34] <= 4)%nat /\
  i2c_write sample_defs 80 (Int 4660) (repeat xaa 256) (fresh []) =
  (Raise (Exception msg_write_len), fresh []) /\
  fst (i2c_write sample_defs 80 (Int 4660) (repeat xaa 255) (fresh [])) <>
  Raise (Exception msg_write_len).
Proof.
  assert (L : (List.length [x12; x34] <= 4)%nat) by (cbn; lia).
  pose proof (i2c_write_length_boundary sample_defs 80 (Int 4660) [x12; x34]
                (repeat xaa 256) (fresh []) eq_refl L) as [_ H256].
  pose proof (i2c_write_length_boundary sample_defs 80 (Int 4660) [x12; x34]
                (repeat xaa 255) (fresh []) eq_refl L) as [H255 _].
  split; [reflexivity|]. split; [exact L|].
  split; [apply H256; reflexivity|apply H255; reflexivity].
Defined.

(** ** Integer register addresses *)

Lemma from_bytes_snoc (l : bytes) (x : byte) :
  from_bytes (l ++ [x]) = from_bytes l * 256 + int_of_byte x.
Proof. unfold from_bytes. now rewrite fold_left_app. Qed.

Lemma be_digits_length (len : nat) (n : N) : List.length (be_digits len n) = len.
Proof.
  revert n. induction len as [|k IH]; intros n; cbn [be_digits]; [reflexivity|].
  rewrite length_app, IH. cbn. lia.
Qed.

Lemma from_bytes_be_digits (len : nat) (n : N) :
  from_bytes (be_digits len n) = Z.of_N n mod 256 ^ Z.of_nat len.
Proof.
  revert n. induction len as [|k IH]; intros n.
  - cbn. now rewrite Z.mod_1_r.
  - cbn [be_digits]. rewrite from_bytes_snoc, IH.
    unfold int_of_byte. rewrite to_N_byte_of_N.
    rewrite N2Z.inj_div, N2Z.inj_mod. change (Z.of_N 256) with 256.
    rewrite Nat2Z.inj_succ, Z.pow_succ_r by lia.
    assert (0 < 256 ^ Z.of_nat k) by (apply Z.pow_pos_nonneg; lia).
    rewrite Z.rem_mul_r by lia. lia.
Qed.

Lemma from_bytes_bound (b : bytes) :
  0 <= from_bytes b < 256 ^ Z.of_nat (List.length b).
Proof.
  induction b as [|x b IH] using rev_ind.
  - cbn. lia.
  - rewrite from_bytes_snoc, length_app. cbn [List.length].
    replace (Z.of_nat (List.length b + 1)) with (Z.succ (Z.of_nat (List.length b)))
      by lia.
    rewrite Z.pow_succ_r by lia. pose proof (int_of_byte_range x). lia.
Qed.

Lemma bit_length_bounds (n : Z) :
  0 < n -> 1 <= bit_length n /\ 2 ^ (bit_length n - 1) <= n < 2 ^ bit_length n.
Proof.
  intros Hn. unfold bit_length.
  set (m := Z.abs_N n). assert (Hm : n = Z.of_N m) by (subst m; lia).
  assert (Hz : m <> 0%N) by lia.
  pose proof (N.size_gt m) as Hgt. pose proof (N.size_le m) as Hle.
  pose proof (N.size_log2 m Hz) as Hs.
  set (k := N.size m) in *.
  apply N2Z.inj_lt in Hgt. apply N2Z.inj_le in Hle.
  rewrite N2Z.inj_pow in Hgt, Hle. rewrite N.succ_double_spec in Hle.
  rewrite N2Z.inj_add, N2Z.inj_mul in Hle.
  change (Z.of_N 2) with 2 in *. change (Z.of_N 1) with 1 in *.
  rewrite <- Hm in Hgt, Hle.
  assert (Hk : 1 <= Z.of_N k) by lia.
  replace (Z.of_N k) with (Z.succ (Z.of_N k - 1)) in Hle by lia.
  rewrite Z.pow_succ_r in Hle by lia. lia.
Qed.

Lemma pow_256 (k : Z) : 0 <= k -> 256 ^ k = 2 ^ (8 * k).
Proof. intros Hk. now rewrite Z.pow_mul_r by lia. Qed.

(** The number of bytes [i2c_read] and [i2c_write] ask [to_bytes] for. *)
Lemma reg_addr_fits (n : Z) :
  0 <= n -> n < 256 ^ Z.max 1 ((bit_length n + 7) / 8).
Proof.
  intros Hn. destruct (Z.eq_dec n 0) as [->|Hz].
  - cbn. lia.
  - destruct (bit_length_bounds n ltac:(lia)) as (Hb & _ & Hu).
    rewrite pow_256 by lia.
    eapply Z.lt_le_trans; [exact Hu|].
    apply Z.pow_le_mono_r; [lia|].
    pose proof (Z.mul_div_le (bit_length n + 7) 8 ltac:(lia)).
    pose proof (Z.mod_pos_bound (bit_length n + 7) 8 ltac:(lia)).
    pose proof (Z.div_mod (bit_length n + 7) 8 ltac:(lia)). lia.
Qed.

Lemma reg_addr_bytes_int (n : Z) :
  0 <= n ->
  reg_addr_bytes (Int n) =
  Ok (be_digits (Z.to_nat (Z.max 1 ((bit_length n + 7) / 8))) (Z.to_N n)).
Proof.
  intros Hn. unfold reg_addr_bytes, to_bytes.
  pose proof (reg_addr_fits n Hn).
  replace (n <? 0) with false by (symmetry; apply Z.ltb_ge; lia).
  replace (256 ^ _ <=? n) with false by (symmetry; apply Z.leb_gt; lia).
  reflexivity.
Qed.

Lemma reg_addr_value (n : Z) (bs : bytes) :
  0 <= n -> reg_addr_bytes (Int n) = Ok bs -> from_bytes bs = n.
Proof.
  intros Hn. rewrite reg_addr_bytes_int by exact Hn. intros [= <-].
  rewrite from_bytes_be_digits, Z2N.id, Z2Nat.id by lia.
  apply Z.mod_small. split; [exact Hn|apply reg_addr_fits, Hn].
Qed.

Lemma reg_addr_minimal (n : Z) (bs bs' : bytes) :
  0 <= n -> reg_addr_bytes (Int n) = Ok bs ->
  bs' <> [] -> from_bytes bs' = n ->
  (1 <= List.length bs <= List.length bs')%nat.
Proof.
  intros Hn. rewrite reg_addr_bytes_int by exact Hn. intros [= <-] Hne Hv.
  rewrite be_digits_length.
  assert (H1 : (1 <= List.length bs')%nat)
    by (destruct bs'; [congruence|cbn; lia]).
  split; [lia|].
  destruct (Z.max_spec 1 ((bit_length n + 7) / 8)) as [[Hlt ->]|[Hge ->]];
    [|cbn; lia].
  set (len := (bit_length n + 7) / 8) in *.
  assert (Hpos : 0 < n).
  { destruct (Z.eq_dec n 0) as [->|]; [|lia]. cbn in Hlt. lia. }
  destruct (bit_length_bounds n Hpos) as (Hb & Hl & _).
  pose proof (from_bytes_bound bs') as [_ Hu]. rewrite Hv in Hu.
  assert (Hlen : 8 * (len - 1) <= bit_length n - 1).
  { pose proof (Z.mul_div_le (bit_length n + 7) 8 ltac:(lia)). subst len. lia. }
  assert (Hlow : 256 ^ (len - 1) <= n).
  { rewrite pow_256 by lia. eapply Z.le_trans; [|exact Hl].
    apply Z.pow_le_mono_r; lia. }
  assert (Hcmp : len - 1 < Z.of_nat (List.length bs')).
  { apply (Z.pow_lt_mono_r_iff 256); lia. }
  lia.
Qed.

Lemma i2c_read_scenario (d : commands_def) (p : port) (t o : byte) :
  int_of_byte t = CMD_TYPE_I2C d ->
  int_of_byte o = CMD_I2C_READ d ->
  exists c,
    written (log (snd (i2c_read d 0x50 (Int 0x10) 16 p))) =
    written (log p) ++ [[x06; t; o; x50; x01; x10; x10; c]].
Proof.
  intros Ht Ho.
  destruct (byte_of_Z_is_byte _ (crc_bytes_byte [t; o; x50; x01; x10; x10]))
    as (c & Ec & _).
  exists c. unfold i2c_read, bind, lift, write, raise.
  change (reg_addr_bytes (Int 0x10)) with (Ok [x10] : result bytes).
  cbn [List.length Z.of_nat Z.ltb Z.compare Pos.compare Pos.compare_cont
       Pos.of_succ_nat orb].
  cbn [pack]. unfold pack1 at 1. rewrite <- Ho, byte_of_Z_int_of_byte.
  cbn [rbind]. change (pack1 fB (aInt 80)) with (Ok [x50] : result bytes).
  change (pack1 fB (aInt 1)) with (Ok [x01] : result bytes).
  change (pack1 (fs 1) (aBytes [x10])) with (Ok [x10] : result bytes).
  change (pack1 fB (aInt 16)) with (Ok [x10] : result bytes).
  cbn [rbind app].
  rewrite make_cmd_unfold, <- Ht, byte_of_Z_int_of_byte.
  cbn [List.length Z.of_nat Pos.of_succ_nat Pos.succ].
  change (byte_of_Z 6) with (Some x06). rewrite Ec. cbn [app].
  match goal with
  | |- context [_get_resp d ?q] =>
      pose proof (get_resp_writes_nothing d q) as W;
      destruct (_get_resp d q) as [[?|?] q']
  end; cbn [snd] in *; rewrite W; cbn [log serial_write port_host];
    now rewrite written_app.
Qed.

(** ** The reset handshake *)

Section Handshake.

Context {T : Type} `{Host T}.
Variables reset_cmd reset_resp : bytes.

Local Abbreviation attempt :=
  (failed_attempt reset_cmd (List.length reset_resp)).
Local Abbreviation answer s :=
  (fst (serial_read (List.length reset_resp) s)).

Lemma attempt_eq (s s1 : T) (got : bytes) :
  serial_read (List.length reset_resp) s = (got, s1) ->
  attempt s = time_sleep (serial_write reset_cmd s1) /\ answer s = got.
Proof.
  intros R. unfold failed_attempt. now rewrite R.
Qed.

(** The loop leaves with success at the first matching read, after [j]
    mismatches, provided the [trials] counter stays below 256. *)
Lemma init_loop_match (j fuel : nat) (trials : Z) (s : T) :
  0 <= trials -> trials + Z.of_nat j < 256 -> (j < fuel)%nat ->
  (forall k, (k < j)%nat -> answer (Nat.iter k attempt s) <> reset_resp) ->
  answer (Nat.iter j attempt s) = reset_resp ->
  init_loop fuel reset_cmd reset_resp trials s =
  Some (Ok tt, snd (serial_read (List.length reset_resp) (Nat.iter j attempt s))).
Proof.
  revert fuel trials s.
  induction j as [|j IH]; intros [|fuel] trials s Ht Hj Hf Hmis Hhit; try lia.
  - change (answer s = reset_resp) in Hhit. cbn [init_loop Nat.iter].
    destruct (serial_read _ s) as [got s1] eqn:R.
    cbn [fst] in Hhit.
    rewrite (proj2 (bytes_eqb_eq _ _) Hhit).
    change (Nat.iter 0 attempt s) with s. now rewrite R.
  - cbn [init_loop].
    pose proof (Hmis O ltac:(lia)) as H0.
    change (answer s <> reset_resp) in H0.
    rewrite Nat.iter_succ_r.
    destruct (serial_read _ s) as [got s1] eqn:R.
    destruct (attempt_eq s s1 got R) as [Es _]. cbn [fst] in H0.
    rewrite (proj2 (bytes_eqb_neq _ _) H0).
    replace (trials + 1 =? 256) with false by (symmetry; apply Z.eqb_neq; lia).
    rewrite <- Es. apply IH; try lia.
    + intros k Hk. rewrite <- Nat.iter_succ_r. apply Hmis. lia.
    + now rewrite <- Nat.iter_succ_r.
Qed.

(** The loop raises when the [m] reads that bring [trials] to 256 all
    miss, having resent the command after each of them. *)
Lemma init_loop_exhaust (m fuel : nat) (trials : Z) (s : T) :
  0 <= trials -> trials + Z.of_nat m = 256 -> (0 < m <= fuel)%nat ->
  (forall k, (k < m)%nat -> answer (Nat.iter k attempt s) <> reset_resp) ->
  init_loop fuel reset_cmd reset_resp trials s =
  Some (Raise (Exception msg_reset), Nat.iter m attempt s).
Proof.
  revert fuel trials s.
  induction m as [|m IH]; intros [|fuel] trials s Ht Hm Hf Hmis; try lia.
  cbn [init_loop].
  pose proof (Hmis O ltac:(lia)) as H0.
  change (answer s <> reset_resp) in H0.
  rewrite Nat.iter_succ_r.
  destruct (serial_read _ s) as [got s1] eqn:R.
  destruct (attempt_eq s s1 got R) as [Es _]. cbn [fst] in H0.
  rewrite (proj2 (bytes_eqb_neq _ _) H0). rewrite <- Es.
  destruct (Z.eqb_spec (trials + 1) 256) as [E|E].
  - assert (m = O) by lia. subst m. reflexivity.
  - apply IH; try lia.
    intros k Hk. rewrite <- Nat.iter_succ_r. apply Hmis. lia.
Qed.

(** With as much fuel as there are trials left the loop has always
    left. *)
Lemma init_loop_leaves (fuel : nat) (trials : Z) (s : T) :
  0 <= trials < 256 -> 256 - trials <= Z.of_nat fuel ->
  exists r, init_loop fuel reset_cmd reset_resp trials s = Some r.
Proof.
  revert trials s. induction fuel as [|fuel IH]; intros trials s Ht Hf; [lia|].
  cbn [init_loop]. destruct (serial_read _ s) as [got s1].
  destruct (bytes_eqb got reset_resp); [now eexists|].
  destruct (Z.eqb_spec (trials + 1) 256) as [E|E]; [now eexists|].
  apply IH; lia.
Qed.

End Handshake.

(** [init] always comes back: with its answer or with an exception. *)
Lemma init_total {T : Type} `{Host T} (d : commands_def) (s : T) :
  exists r, init d s = Some r.
Proof.
  unfold init, init_fuel.
  destruct (pack _ _) as [reset_cmd|e]; [|now eexists].
  destruct (_make_resp _) as [reset_resp|e]; [|now eexists].
  destruct (serial_read _ _) as [got s3].
  apply init_loop_leaves; lia.
Qed.

Lemma init_unfold {T : Type} `{Host T} (d : commands_def) (s : T) (rc rr : byte) :
  int_of_byte rc = CMD_TYPE_RESET d ->
  int_of_byte rr = CMD_RESP_RESET d ->
  init d s =
  init_loop 256 [rc] [x01; rr; rr] 0
    (snd (serial_read 3 (time_sleep (serial_write [rc] s)))).
Proof.
  intros Hc Hr. unfold init, init_fuel, _make_resp.
  rewrite (pack_B _ rc) by (rewrite <- Hc; apply byte_of_Z_int_of_byte).
  rewrite (pack_BBB _ _ _ x01 rr rr)
    by (try reflexivity; cbn [_crc]; rewrite <- Hr; apply byte_of_Z_int_of_byte).
  cbn [List.length]. now destruct (serial_read 3 _).
Qed.

(** C4. [init] sends the one-byte reset command, waits, discards one
    read of three bytes and then compares reads of three bytes with the
    expected frame [[1, r, r]]. If the first compared read matches,
    [init] returns with nothing sent again. If none of 256 compared
    reads matches, [init] raises 'No response after reset' having made
    exactly these 256 reads, each followed by the reset command sent
    again. *)
Theorem init_handshake {T : Type} `{Host T} (d : commands_def) (s : T)
    (rc rr : byte) :
  int_of_byte rc = CMD_TYPE_RESET d ->
  int_of_byte rr = CMD_RESP_RESET d ->
  let reset_cmd := [rc] in
  let reset_resp := [x01; rr; rr] in
  let s0 := snd (serial_read 3 (time_sleep (serial_write reset_cmd s))) in
  let attempt := fun s' =>
    time_sleep (serial_write reset_cmd (snd (serial_read 3 s'))) in
  (fst (serial_read 3 s0) = reset_resp ->
   init d s = Some (Ok tt, snd (serial_read 3 s0))) /\
  ((forall k, (k < 256)%nat ->
      fst (serial_read 3 (Nat.iter k attempt s0)) <> reset_resp) ->
   init d s = Some (Raise (Exception msg_reset), Nat.iter 256 attempt s0)).
Proof.
  intros Hc Hr reset_cmd reset_resp s0 attempt.
  rewrite (init_unfold d s rc rr Hc Hr). fold reset_cmd reset_resp s0.
  split.
  - intros Hhit.
    apply (init_loop_match reset_cmd reset_resp 0 256 0 s0); try lia.
    exact Hhit.
  - intros Hmis.
    apply (init_loop_exhaust reset_cmd reset_resp 256 256 0 s0); try lia.
    exact Hmis.
Qed.

(** A port with nothing to deliver stays that way through the rounds of
    the handshake, and every read on it comes back empty. *)
Lemma dead_port_never_answers (cmd : bytes) (n k : nat) (p : port) :
  rx p = [] ->
  fst (serial_read n (Nat.iter k (failed_attempt cmd n) p)) = [].
Proof.
  intros Hp.
  assert (Hk : rx (Nat.iter k (failed_attempt cmd n) p) = []).
  { induction k as [|k IH]; [exact Hp|].
    rewrite Nat.iter_succ. unfold failed_attempt at 1. cbn.
    rewrite IH. now destruct n. }
  cbn. rewrite Hk. now destruct n.
Qed.

Lemma init_handshake_witness :
  int_of_byte x00 = CMD_TYPE_RESET sample_defs /\
  int_of_byte x02 = CMD_RESP_RESET sample_defs /\
  (exists p, init sample_defs (fresh [xff; xff; xff; x01; x02; x02]) =
             Some (Ok tt, p)) /\
  (exists p, init sample_defs (fresh []) =
             Some (Raise (Exception msg_reset), p)).
Proof.
  split; [reflexivity|]. split; [reflexivity|]. split.
  - destruct (init_handshake sample_defs (fresh [xff; xff; xff; x01; x02; x02])
                x00 x02 eq_refl eq_refl) as [Hhit _].
    eexists. apply Hhit. reflexivity.
  - destruct (init_handshake sample_defs (fresh []) x00 x02 eq_refl eq_refl)
      as [_ Hmis].
    eexists. apply Hmis. intros k _.
    change (fst (serial_read 3
                   (Nat.iter k (failed_attempt [x00] 3)
                      (snd (serial_read 3 (time_sleep (serial_write [x00] (fresh []))))))) <>
            [x01; x02; x02]).
    rewrite dead_port_never_answers by reflexivity. discriminate.
Defined.

(** The two runs of the handshake, event by event: one write and two
    reads when the badge answers at once; 257 writes (the first and 256
    resent) and 257 reads (one discarded and 256 compared) when it
    never does. *)
Example init_answered_trace :
  init sample_defs (fresh [xff; xff; xff; x01; x02; x02]) =
  Some (Ok tt,
        {| rx := [];
           log := [EvWrite [x00]; EvSleep; EvRead 3 [xff; xff; xff];
                   EvRead 3 [x01; x02; x02]] |}).
Proof. reflexivity. Qed.

Example init_dead_trace :
  option_map (fun r => (fst r, written (log (snd r)), reads (log (snd r))))
             (init sample_defs (fresh [])) =
  Some (Raise (Exception msg_reset), repeat [x00] 257, 257%nat).
Proof. vm_compute. reflexivity. Qed.

(** ** Telling the errors apart *)




Lemma kind_of_invalid (m : string) :
  In m [msg_led; msg_reg_addr; msg_read_len; msg_write_len;
        msg_i2c_clock; msg_spi_clock; msg_spi_mode; msg_spi_len] ->
  kind_of (Exception m) = Some InvalidArgument.
Proof.
  cbn [In]. intros [<-|[<-|[<-|[<-|[<-|[<-|[<-|[<-|[]]]]]]]]]; reflexivity.
Qed.



(** The same port one byte earlier: nothing arrives after the length
    byte and the failure shows as an [IndexError], not as an exception
    of the driver. *)
Example timeout_as_index_error :
  fst (_get_resp sample_defs (fresh [x02])) = Raise IndexError.
Proof. reflexivity. Qed.

(** ** More on the checksum and the frames *)

Lemma int_of_byte_inj (x y : byte) : int_of_byte x = int_of_byte y -> x = y.
Proof.
  intros E. rewrite <- (byte_of_N_to_N x), <- (byte_of_N_to_N y).
  unfold int_of_byte in E. f_equal. lia.
Qed.

Lemma int_of_byte_of_N (n : N) :
  (n <= 255)%N -> int_of_byte (byte_of_N n) = Z.of_N n.
Proof.
  intros Hn. unfold int_of_byte. rewrite to_N_byte_of_N, N.mod_small by lia.
  reflexivity.
Qed.

Lemma byte_of_Z_byte_of_N (z : Z) :
  is_byte z -> byte_of_Z z = Some (byte_of_N (Z.to_N z)).
Proof.
  intros [H0 H1]. unfold byte_of_Z.
  now replace ((0 <=? z) && (z <=? 255)) with true
    by (symmetry; apply andb_true_iff; split; apply Z.leb_le; lia).
Qed.

Lemma crc_app_bytes (a b : bytes) :
  _crc (Bytes (a ++ b)) = Z.lxor (_crc (Bytes a)) (_crc (Bytes b)).
Proof.
  induction a as [|x a IH].
  - cbn [app]. change (_crc (Bytes [])) with 0. now rewrite Z.lxor_0_l.
  - cbn [app]. now rewrite !crc_cons, IH, Z.lxor_assoc.
Qed.

(** X1. The checksum of a byte sequence is itself a byte, so packing it
    with format [B] cannot fail, and the checksum of a concatenation is
    the XOR of the checksums of the parts. *)
Theorem crc_byte_and_concat (a b : bytes) :
  0 <= _crc (Bytes a) <= 255 /\
  _crc (Bytes (a ++ b)) = Z.lxor (_crc (Bytes a)) (_crc (Bytes b)).
Proof.
  split; [apply crc_bytes_byte|apply crc_app_bytes].
Qed.

Lemma make_cmd_frame_of (grp : Z) (g : byte) (payload : bytes) :
  int_of_byte g = grp -> (List.length payload <= 254)%nat ->
  _make_cmd grp (Some payload) = Ok (frame_of g payload).
Proof.
  intros <- Hl. rewrite make_cmd_unfold, byte_of_Z_int_of_byte.
  rewrite byte_of_Z_byte_of_N by (unfold is_byte; lia).
  rewrite (byte_of_Z_byte_of_N (_crc _)) by apply crc_bytes_byte.
  unfold frame_of.
  now replace (Z.to_N (Z.of_nat (S (List.length payload))))
    with (N.of_nat (S (List.length payload))) by lia.
Qed.

(** X2. Every frame [_make_cmd] returns for a payload has three bytes
    more than the payload: the first byte is the payload length plus
    one, then come the command byte and the payload unchanged, and the
    last byte makes the XOR of everything after the length byte zero. *)
Theorem make_cmd_frame_invariant (cmd : Z) (data frame : bytes) :
  _make_cmd cmd (Some data) = Ok frame ->
  List.length frame = (List.length data + 3)%nat /\
  index frame 0 = Ok (Z.of_nat (List.length data) + 1) /\
  index frame 1 = Ok cmd /\
  slice frame 2 (-1) = data /\
  _crc (Bytes (slice frame 1 (Z.of_nat (List.length frame)))) = 0.
Proof.
  intros Hf. apply make_cmd_frame in Hf as (c & k & x & Ec & Ek & Ex & ->).
  apply byte_of_Z_Some in Ec, Ek, Ex.
  assert (Hlen : List.length (k :: (c :: data) ++ [x]) = (List.length data + 3)%nat).
  { cbn [List.length]. rewrite length_app. cbn [List.length]. lia. }
  split; [exact Hlen|].
  split; [rewrite index_first, Ek; f_equal; lia|].
  split.
  { unfold index. rewrite Hlen. cbn [Z.ltb Z.compare].
    replace ((0 <=? 1) && (1 <? Z.of_nat (List.length data + 3))) with true
      by (symmetry; apply andb_true_iff; split;
          [reflexivity|apply Z.ltb_lt; lia]).
    change (Z.to_nat 1) with 1%nat. cbn [nth_error app]. now rewrite Ec. }
  split.
  { unfold slice, clamp. rewrite Hlen. cbn [Z.ltb Z.compare].
    replace (Z.to_nat (Z.min 2 (Z.of_nat (List.length data + 3)))) with 2%nat by lia.
    replace (Z.to_nat (Z.max 0 (Z.of_nat (List.length data + 3) + -1)) - 2)%nat
      with (List.length data) by lia.
    cbn [skipn app]. rewrite firstn_app, firstn_all, Nat.sub_diag. cbn.
    apply app_nil_r. }
  unfold slice, clamp. rewrite Hlen.
  replace (Z.of_nat (List.length data + 3) <? 0) with false
    by (symmetry; apply Z.ltb_ge; lia).
  cbn [Z.ltb Z.compare].
  replace (Z.to_nat (Z.min 1 (Z.of_nat (List.length data + 3)))) with 1%nat by lia.
  rewrite Z.min_id, Nat2Z.id. cbn [skipn].
  rewrite firstn_all2 by (rewrite length_app; cbn [List.length]; lia).
  rewrite crc_app_bytes, (proj2 (crc_int_and_singleton x)), Ex.
  apply Z.lxor_nilpotent.
Qed.

Lemma make_cmd_frame_invariant_witness :
  _make_cmd 1 (Some [xde; xad]) = Ok [x03; x01; xde; xad; x72] /\
  slice [x03; x01; xde; xad; x72] 2 (-1) = [xde; xad].
Proof.
  split; [reflexivity|].
  exact (proj1 (proj2 (proj2 (proj2
           (make_cmd_frame_invariant 1 [xde; xad] [x03; x01; xde; xad; x72]
              eq_refl))))).
Defined.

(** X3. [_make_cmd] returns a frame exactly when the command is a byte
    and the payload has at most 254 bytes; in every other case it raises
    [struct.error]. *)
Theorem make_cmd_ok_iff (cmd : Z) (data : bytes) :
  ((exists frame, _make_cmd cmd (Some data) = Ok frame) <->
   (0 <= cmd <= 255 /\ (List.length data <= 254)%nat)) /\
  ((forall frame, _make_cmd cmd (Some data) <> Ok frame) ->
   _make_cmd cmd (Some data) = Raise StructError).
Proof.
  split; [split|].
  - intros (frame & Hf).
    apply make_cmd_frame in Hf as (c & k & x & Ec & Ek & _).
    apply byte_of_Z_Some in Ec, Ek.
    pose proof (int_of_byte_range c). pose proof (int_of_byte_range k). lia.
  - intros [Hc Hl]. now apply make_cmd_succeeds.
  - intros Hno. rewrite make_cmd_unfold in *.
    destruct (byte_of_Z cmd) as [c|]; [|reflexivity].
    destruct (byte_of_Z (Z.of_nat _)) as [k|]; [|reflexivity].
    destruct (byte_of_Z (_crc _)) as [x|]; [|reflexivity].
    now destruct (Hno _ eq_refl).
Qed.

Lemma make_cmd_ok_iff_witness :
  _make_cmd 7 (Some (repeat x00 255)) = Raise StructError.
Proof.
  apply (proj2 (make_cmd_ok_iff 7 (repeat x00 255))).
  intros frame Hf.
  assert (E : exists f, _make_cmd 7 (Some (repeat x00 255)) = Ok f)
    by (exists frame; exact Hf).
  apply (proj1 (proj1 (make_cmd_ok_iff 7 (repeat x00 255)))) in E.
  destruct E as [_ E]. rewrite repeat_length in E.
  lia.
Defined.

(** X4. An empty payload and no payload give the same frame (or the
    same error): [_make_cmd(cmd, b'')] is [_make_cmd(cmd)]. *)
Theorem make_cmd_empty_payload (cmd : Z) :
  _make_cmd cmd (Some []) = _make_cmd cmd None.
Proof.
  rewrite make_cmd_unfold. cbn [List.length].
  change (byte_of_Z (Z.of_nat 1)) with (Some x01).
  destruct (byte_of_Z cmd) as [c|] eqn:Ec.
  - rewrite (proj2 (crc_int_and_singleton c)), (byte_of_Z_Some _ _ Ec), Ec.
    symmetry. now apply pack_BBB.
  - unfold _make_cmd. cbn [pack rbind]. unfold pack1 at 2. now rewrite Ec.
Qed.

(** ** More on the decoder *)

Lemma lxor_cancel_l (a x y : Z) : Z.lxor a x = Z.lxor a y -> x = y.
Proof.
  intros E.
  rewrite <- (Z.lxor_0_l x), <- (Z.lxor_0_l y), <- (Z.lxor_nilpotent a).
  now rewrite !Z.lxor_assoc, E.
Qed.

Lemma lxor_cancel_r (a x y : Z) : Z.lxor x a = Z.lxor y a -> x = y.
Proof. rewrite !(Z.lxor_comm _ a). apply lxor_cancel_l. Qed.

(** A body whose checksum verifies no longer does once one of its bytes
    is replaced by another one. *)
Lemma corrupted_body_mismatch (a b : bytes) (x y : byte) :
  x <> y ->
  _crc (Bytes (removelast (a ++ x :: b))) = int_of_byte (last (a ++ x :: b) x00) ->
  _crc (Bytes (removelast (a ++ y :: b))) <> int_of_byte (last (a ++ y :: b) x00).
Proof.
  intros Hxy. destruct b as [|b0 b] using rev_ind.
  - rewrite !removelast_last, !last_last. intros E E'.
    apply Hxy, int_of_byte_inj. congruence.
  - clear IHb.
    change (a ++ x :: b ++ [b0]) with (a ++ (x :: b) ++ [b0]).
    change (a ++ y :: b ++ [b0]) with (a ++ (y :: b) ++ [b0]).
    rewrite !app_assoc, !removelast_last, !last_last.
    rewrite !crc_app_bytes, !crc_cons. intros E E'.
    rewrite <- E' in E. apply lxor_cancel_l, lxor_cancel_r in E.
    apply Hxy, int_of_byte_inj, E.
Qed.

(** X5. A response whose checksum verifies and in which one body byte
    (status, payload or checksum) is then replaced by a different byte
    is always turned down with the CRC error. *)
Theorem get_resp_detects_corrupted_byte (d : commands_def) (len x y : byte)
    (a b rest : bytes) (lg : list event) :
  List.length (a ++ x :: b) = Z.to_nat (int_of_byte len + 1) ->
  _crc (Bytes (removelast (a ++ x :: b))) = int_of_byte (last (a ++ x :: b) x00) ->
  x <> y ->
  exists calc received,
    calc <> received /\
    fst (_get_resp d {| rx := len :: (a ++ y :: b) ++ rest; log := lg |}) =
    Raise (Exception (msg_crc calc received)).
Proof.
  intros Hlen Hok Hxy.
  assert (Hlen' : List.length (a ++ y :: b) = Z.to_nat (int_of_byte len + 1))
    by (rewrite <- Hlen, !length_app; reflexivity).
  rewrite (get_resp_port d len _ rest lg Hlen'). cbn [fst].
  pose proof (corrupted_body_mismatch a b x y Hxy Hok) as Hne.
  unfold decode_body.
  replace (int_of_byte (last (a ++ y :: b) x00) =?
           _crc (Bytes (removelast (a ++ y :: b))))
    with false by (symmetry; apply Z.eqb_neq; congruence).
  cbn [negb]. eexists. eexists. split; [exact Hne|reflexivity].
Qed.

Lemma get_resp_detects_corrupted_byte_witness :
  List.length ([x01] ++ x07 :: [x06]) = Z.to_nat (int_of_byte x02 + 1) /\
  x07 <> x17 /\
  exists calc received,
    calc <> received /\
    fst (_get_resp sample_defs (fresh (x02 :: ([x01] ++ x17 :: [x06]) ++ []))) =
    Raise (Exception (msg_crc calc received)).
Proof.
  assert (N : x07 <> x17) by discriminate.
  split; [reflexivity|]. split; [exact N|].
  exact (get_resp_detects_corrupted_byte sample_defs x02 x07 x17 [x01] [x06]
           [] [] eq_refl eq_refl N).
Defined.

(** X6. [_get_resp] only reads, and it reads once or twice: nothing is
    ever written while a response is awaited. *)
Theorem get_resp_reads_only (d : commands_def) (p : port) :
  written (log (snd (_get_resp d p))) = written (log p) /\
  (reads (log (snd (_get_resp d p))) = (reads (log p) + 1)%nat \/
   reads (log (snd (_get_resp d p))) = (reads (log p) + 2)%nat).
Proof.
  split; [apply get_resp_writes_nothing|].
  unfold _get_resp, bind, read, lift, raise, ret. cbn [serial_read port_host].
  destruct (index _ 0) as [resp_len|]; cbn [snd log];
    [|left; now rewrite reads_app].
  right.
  destruct (index _ 0) as [resp_type|]; cbn [snd log];
    [|rewrite !reads_app; cbn; lia].
  destruct (index _ (-1)) as [resp_crc|]; cbn [snd log];
    [|rewrite !reads_app; cbn; lia].
  destruct (negb _); [|destruct (negb _)]; cbn [snd log];
    rewrite !reads_app; cbn; lia.
Qed.

(** X7. When the port runs dry: with nothing to read at all, or nothing
    after the length byte, [_get_resp] fails with [IndexError]; when
    some but not all of the announced body arrives, the bytes that did
    arrive are decoded as if they were the whole body. *)
Theorem get_resp_short_stream (d : commands_def) (len : byte) (body : bytes)
    (lg : list event) :
  (List.length body <= Z.to_nat (int_of_byte len + 1))%nat ->
  fst (_get_resp d {| rx := []; log := lg |}) = Raise IndexError /\
  fst (_get_resp d {| rx := len :: body; log := lg |}) =
  match body with
  | [] => Raise IndexError
  | _ :: _ => decode_body d body
  end.
Proof.
  intros Hlen. split; [reflexivity|].
  destruct body as [|b0 body].
  - unfold _get_resp, bind, read, lift.
    change (Z.to_nat 1) with 1%nat. cbn [serial_read port_host rx log firstn skipn].
    rewrite index_first. cbn [serial_read port_host rx log].
    rewrite firstn_nil. reflexivity.
  - erewrite get_resp_outcome; [reflexivity| | |discriminate].
    + reflexivity.
    + cbn [serial_read port_host rx log].
      rewrite firstn_all2 by exact Hlen. reflexivity.
Qed.

Lemma get_resp_short_stream_witness :
  (List.length [x01; x01] <= Z.to_nat (int_of_byte x05 + 1))%nat /\
  fst (_get_resp sample_defs (fresh [x05; x01; x01])) = Ok [].
Proof.
  assert (L : (List.length [x01; x01] <= Z.to_nat (int_of_byte x05 + 1))%nat)
    by (cbn; lia).
  split; [exact L|].
  exact (proj2 (get_resp_short_stream sample_defs x05 [x01; x01] [] L)).
Defined.

(** ** More on the handshake *)

Lemma init_loop_outcome {T : Type} `{Host T} (reset_cmd reset_resp : bytes)
    (fuel : nat) (trials : Z) (s : T) :
  0 <= trials < 256 -> 256 - trials <= Z.of_nat fuel ->
  exists r s', init_loop fuel reset_cmd reset_resp trials s = Some (r, s') /\
               (r = Ok tt \/ r = Raise (Exception msg_reset)).
Proof.
  revert trials s. induction fuel as [|fuel IH]; intros trials s Ht Hf; [lia|].
  cbn [init_loop]. destruct (serial_read _ s) as [got s1].
  destruct (bytes_eqb got reset_resp); [eexists; eexists; split; [reflexivity|now left]|].
  destruct (Z.eqb_spec (trials + 1) 256) as [E|E];
    [eexists; eexists; split; [reflexivity|now right]|].
  apply IH; lia.
Qed.

(** X8. [init] always comes to an end within its 256 rounds, and it
    ends in one of three ways: it returns, it raises 'No response after
    reset', or it raises [struct.error] before touching the port because
    a reset constant of the catalogue is not a byte. *)
Theorem init_outcomes {T : Type} `{Host T} (d : commands_def) (s : T) :
  exists r s',
    init d s = Some (r, s') /\
    (r = Ok tt \/ r = Raise (Exception msg_reset) \/
     (r = Raise StructError /\ s' = s)).
Proof.
  unfold init, init_fuel.
  destruct (pack _ _) as [reset_cmd|e] eqn:Ec.
  2:{ rewrite (pack_error _ _ _ Ec). eexists. eexists.
      split; [reflexivity|]. right. right. now split. }
  destruct (_make_resp _) as [reset_resp|e] eqn:Er.
  2:{ unfold _make_resp in Er. rewrite (pack_error _ _ _ Er). eexists. eexists.
      split; [reflexivity|]. right. right. now split. }
  destruct (serial_read _ _) as [got s3].
  destruct (init_loop_outcome reset_cmd reset_resp 256 0 s3)
    as (r & s' & E & [Hr|Hr]); try lia;
    exists r, s'; (split; [exact E|]); [left|right; left]; exact Hr.
Qed.

(** X9. If the first [j] compared reads miss and the next one matches,
    with [j] below 256, [init] returns after exactly [j] rounds of
    read, resend and pause, and the matching read is its last call. *)
Theorem init_returns_at_first_match {T : Type} `{Host T} (d : commands_def)
    (s : T) (rc rr : byte) (j : nat) :
  int_of_byte rc = CMD_TYPE_RESET d ->
  int_of_byte rr = CMD_RESP_RESET d ->
  (j < 256)%nat ->
  let s0 := snd (serial_read 3 (time_sleep (serial_write [rc] s))) in
  (forall k, (k < j)%nat ->
     fst (serial_read 3 (Nat.iter k (failed_attempt [rc] 3) s0)) <> [x01; rr; rr]) ->
  fst (serial_read 3 (Nat.iter j (failed_attempt [rc] 3) s0)) = [x01; rr; rr] ->
  init d s =
  Some (Ok tt, snd (serial_read 3 (Nat.iter j (failed_attempt [rc] 3) s0))).
Proof.
  intros Hc Hr Hj s0 Hmis Hhit.
  rewrite (init_unfold d s rc rr Hc Hr). fold s0.
  apply (init_loop_match [rc] [x01; rr; rr] j 256 0 s0); try lia;
    assumption.
Qed.

Lemma init_returns_at_first_match_witness :
  int_of_byte x00 = CMD_TYPE_RESET sample_defs /\
  int_of_byte x02 = CMD_RESP_RESET sample_defs /\
  (2 < 256)%nat /\
  exists p,
    init sample_defs (fresh [x11; x11; x11; x22; x22; x22; x33; x33; x33;
                             x01; x02; x02; x44]) = Some (Ok tt, p) /\
    rx p = [x44] /\ written (log p) = [[x00]; [x00]; [x00]].
Proof.
  assert (L : (2 < 256)%nat) by lia.
  split; [reflexivity|]. split; [reflexivity|]. split; [exact L|].
  eexists. split.
  - apply (init_returns_at_first_match sample_defs _ x00 x02 2 eq_refl eq_refl L).
    + intros [|[|k]] Hk; [discriminate|discriminate|lia].
    + reflexivity.
  - split; reflexivity.
Defined.

(** ** The commands, one exchange at a time *)

Lemma sends_nothing_get_resp (d : commands_def) : sends_nothing (_get_resp d).
Proof. intros p. apply get_resp_writes_nothing. Qed.

Lemma sends_nothing_ret {A : Type} (a : A) : sends_nothing (ret a).
Proof. intros p. reflexivity. Qed.

Lemma sends_nothing_lift {A : Type} (r : result A) : sends_nothing (lift r).
Proof. intros p. reflexivity. Qed.

Lemma sends_nothing_bind {A B : Type} (m : M port A) (k : A -> M port B) :
  sends_nothing m -> (forall a, sends_nothing (k a)) -> sends_nothing (bind m k).
Proof.
  intros Hm Hk p. unfold bind. specialize (Hm p).
  destruct (m p) as [[a|e] p']; cbn [snd] in *; [|exact Hm].
  now rewrite Hk.
Qed.

Create HintDb quiet.

#[local] Hint Resolve sends_nothing_get_resp sends_nothing_ret
  sends_nothing_lift sends_nothing_bind : quiet.

(** Encoding, sending and whatever follows without sending: the port
    has received the frame, once. *)
Lemma exchange_written {A : Type} (grp : Z) (g : byte) (payload : bytes)
    (k : M port A) (p : port) :
  int_of_byte g = grp -> (List.length payload <= 254)%nat ->
  sends_nothing k ->
  written (log (snd ((cmd <- lift (_make_cmd grp (Some payload)) ;;
                      write cmd ;;; k) p))) =
  written (log p) ++ [frame_of g payload].
Proof.
  intros Hg Hl Hk. unfold bind, lift, write.
  rewrite (make_cmd_frame_of grp g payload Hg Hl). cbv beta iota.
  rewrite Hk. cbn [serial_write port_host log]. now rewrite written_app.
Qed.

Lemma exchange_too_long {A : Type} (grp : Z) (payload : bytes)
    (k : M port A) (p : port) :
  (255 <= List.length payload)%nat ->
  (cmd <- lift (_make_cmd grp (Some payload)) ;; write cmd ;;; k) p =
  (Raise StructError, p).
Proof.
  intros Hl. unfold bind at 1. unfold lift.
  now rewrite (make_cmd_too_long grp payload Hl).
Qed.

(** The answer of the badge to a command: status OK and a payload. *)
Lemma get_resp_frame_of (d : commands_def) (okb : byte) (resp rest : bytes)
    (lg : list event) :
  int_of_byte okb = CMD_RESP_OK d -> (List.length resp <= 254)%nat ->
  exists lg',
    _get_resp d {| rx := frame_of okb resp ++ rest; log := lg |} =
    (Ok resp, {| rx := rest; log := lg' |}) /\
    written lg' = written lg.
Proof.
  intros Hok Hl. unfold frame_of.
  set (k := byte_of_N (N.of_nat (S (List.length resp)))).
  set (x := byte_of_N (Z.to_N (_crc (Bytes (okb :: resp))))).
  assert (Hk : int_of_byte k = Z.of_nat (S (List.length resp))).
  { subst k. rewrite int_of_byte_of_N by lia. lia. }
  assert (Hx : int_of_byte x = _crc (Bytes (okb :: resp))).
  { subst x. pose proof (crc_bytes_byte (okb :: resp)) as [? ?].
    rewrite int_of_byte_of_N by lia. lia. }
  change ((k :: okb :: resp ++ [x]) ++ rest)
    with (k :: ((okb :: resp) ++ [x]) ++ rest).
  rewrite get_resp_port
    by (rewrite length_app; cbn [List.length]; lia).
  eexists. split.
  - f_equal. unfold decode_body.
    rewrite last_last, removelast_last. cbn [app hd tl].
    rewrite removelast_last, Hx, Z.eqb_refl, Hok, Z.eqb_refl. reflexivity.
  - rewrite written_app. cbn. apply app_nil_r.
Qed.

Lemma pack_nil : pack [] [] = Ok [].
Proof. reflexivity. Qed.

Lemma pack_cons_B (z : Z) (f : list fmt) (a : list arg) :
  pack (fB :: f) (aInt z :: a) =
  match byte_of_Z z with
  | Some b => rbind (pack f a) (fun b' => Ok (b :: b'))
  | None => Raise StructError
  end.
Proof.
  cbn [pack]. unfold pack1. destruct (byte_of_Z z); reflexivity.
Qed.

Lemma pack_cons_s (d : bytes) (f : list fmt) (a : list arg) :
  pack (fs (List.length d) :: f) (aBytes d :: a) =
  rbind (pack f a) (fun b' => Ok (d ++ b')).
Proof. cbn [pack]. now rewrite pack1_s_exact. Qed.

Lemma pack_cons_H (z : Z) (f : list fmt) (a : list arg) :
  pack (fH :: f) (aInt z :: a) =
  if (0 <=? z) && (z <=? 65535)
  then rbind (pack f a)
         (fun b' => Ok (byte_of_N (Z.to_N (z / 256)) :: byte_of_N (Z.to_N z) :: b'))
  else Raise StructError.
Proof.
  cbn [pack]. unfold pack1. destruct ((0 <=? z) && (z <=? 65535)); reflexivity.
Qed.

Lemma short_value (z : Z) :
  0 <= z <= 65535 ->
  int_of_byte (byte_of_N (Z.to_N (z / 256))) * 256 +
  int_of_byte (byte_of_N (Z.to_N z)) = z.
Proof.
  intros Hz. unfold int_of_byte. rewrite !to_N_byte_of_N.
  assert (0 <= z / 256 <= 255).
  { split; [apply Z.div_pos; lia|].
    apply Z.lt_succ_r, Z.div_lt_upper_bound; lia. }
  rewrite (N.mod_small (Z.to_N (z / 256))) by lia.
  rewrite N2Z.inj_mod, !Z2N.id by lia. change (Z.of_N 256) with 256.
  pose proof (Z.div_mod z 256 ltac:(lia)). lia.
Qed.

Lemma led_check (led : Z) :
  negb (existsb (Z.eqb led) [LED1; LED2]) = false <-> led = 0 \/ led = 1.
Proof.
  cbn [existsb]. unfold LED1, LED2.
  destruct (Z.eqb_spec led 0), (Z.eqb_spec led 1); cbn; split; intros;
    try lia; try reflexivity; try discriminate.
Qed.

Lemma led_check_bad (led : Z) :
  led <> 0 -> led <> 1 -> negb (existsb (Z.eqb led) [LED1; LED2]) = true.
Proof.
  intros H0 H1. destruct (negb _) eqn:E; [reflexivity|].
  apply led_check in E. lia.
Qed.

Lemma bind_lift_Ok {T A B : Type} (a : A) (k : A -> M T B) (s : T) :
  bind (lift (Ok a)) k s = k a s.
Proof. reflexivity. Qed.

Lemma bind_lift_Raise {T A B : Type} (e : exn) (k : A -> M T B) (s : T) :
  bind (lift (Raise e)) k s = (Raise e, s).
Proof. reflexivity. Qed.

Ltac quiet :=
  repeat first [ apply sends_nothing_get_resp | apply sends_nothing_ret
               | apply sends_nothing_lift
               | apply sends_nothing_bind; [|intros ?] ].

Ltac pack_bytes :=
  repeat first [ rewrite pack_cons_B | rewrite pack_cons_s | rewrite pack_nil ];
  repeat rewrite byte_of_Z_int_of_byte; cbn [rbind app].

(** X10. [led_set] with LED number 0 or 1: when the state is a byte,
    exactly one frame is written, with the payload [LED_SET, led,
    state]; when the state is not in [0, 255], [struct.error] is raised
    and the port is not touched. *)
Theorem led_set_frames (d : commands_def) (p : port) (g o bl : byte)
    (state : Z) :
  int_of_byte g = CMD_TYPE_LED d ->
  int_of_byte o = CMD_LED_SET d ->
  bl = x00 \/ bl = x01 ->
  (forall bs, int_of_byte bs = state ->
     written (log (snd (led_set d (int_of_byte bl) state p))) =
     written (log p) ++ [frame_of g [o; bl; bs]]) /\
  (~ (0 <= state <= 255) ->
   led_set d (int_of_byte bl) state p = (Raise StructError, p)).
Proof.
  intros Hg Ho Hl.
  assert (Hc : negb (existsb (Z.eqb (int_of_byte bl)) [LED1; LED2]) = false)
    by (destruct Hl as [->| ->]; reflexivity).
  split.
  - intros bs <-. unfold led_set. rewrite Hc, <- Ho. pack_bytes.
    rewrite bind_lift_Ok. apply exchange_written; [exact Hg|cbn; lia|quiet].
  - intros Hs. unfold led_set. rewrite Hc, <- Ho. pack_bytes.
    rewrite (byte_of_Z_None state Hs). reflexivity.
Qed.

Lemma led_set_frames_witness :
  int_of_byte x03 = CMD_TYPE_LED sample_defs /\
  int_of_byte x01 = CMD_LED_SET sample_defs /\
  written (log (snd (led_set sample_defs 1 0 (fresh [])))) =
  [[x04; x03; x01; x01; x00; x03]] /\
  led_set sample_defs 1 256 (fresh []) = (Raise StructError, fresh []).
Proof.
  destruct (led_set_frames sample_defs (fresh []) x03 x01 x01 0
              eq_refl eq_refl (or_intror eq_refl)) as [Hw _].
  destruct (led_set_frames sample_defs (fresh []) x03 x01 x01 256
              eq_refl eq_refl (or_intror eq_refl)) as [_ He].
  split; [reflexivity|]. split; [reflexivity|]. split.
  - exact (Hw x00 eq_refl).
  - apply He. intros [_ E]. exact (E eq_refl).
Defined.

(** X11. [led_blink]: an LED number other than 0 and 1 raises 'Invalid
    LED number' with the port untouched; with LED 0 or 1 a period that
    is a byte gives exactly one written frame, payload [LED_BLINK, led,
    period], and a period outside [0, 255] raises [struct.error] with
    the port untouched. *)
Theorem led_blink_behaviour (d : commands_def_full) (p : port) (g o bl : byte)
    (led period : Z) :
  int_of_byte g = CMD_TYPE_LED d ->
  int_of_byte o = CMD_LED_BLINK d ->
  bl = x00 \/ bl = x01 ->
  (led <> 0 -> led <> 1 ->
   led_blink d led period p = (Raise (Exception msg_led), p)) /\
  (forall bp, int_of_byte bp = period ->
     written (log (snd (led_blink d (int_of_byte bl) period p))) =
     written (log p) ++ [frame_of g [o; bl; bp]]) /\
  (~ (0 <= period <= 255) ->
   led_blink d (int_of_byte bl) period p = (Raise StructError, p)).
Proof.
  intros Hg Ho Hl.
  assert (Hc : negb (existsb (Z.eqb (int_of_byte bl)) [LED1; LED2]) = false)
    by (destruct Hl as [->| ->]; reflexivity).
  split; [|split].
  - intros H0 H1. unfold led_blink. now rewrite led_check_bad.
  - intros bp <-. unfold led_blink. rewrite Hc, <- Ho. pack_bytes.
    rewrite bind_lift_Ok. apply exchange_written; [exact Hg|cbn; lia|quiet].
  - intros Hs. unfold led_blink. rewrite Hc, <- Ho. pack_bytes.
    rewrite (byte_of_Z_None period Hs). reflexivity.
Qed.

Lemma led_blink_behaviour_witness :
  int_of_byte x03 = CMD_TYPE_LED sample_full /\
  int_of_byte x02 = CMD_LED_BLINK sample_full /\
  led_blink sample_full 2 10 (fresh []) = (Raise (Exception msg_led), fresh []) /\
  written (log (snd (led_blink sample_full 0 10 (fresh [])))) =
  [[x04; x03; x02; x00; x0a; x0b]].
Proof.
  destruct (led_blink_behaviour sample_full (fresh []) x03 x02 x00 2 10
              eq_refl eq_refl (or_introl eq_refl)) as (Hbad & Hw & _).
  split; [reflexivity|]. split; [reflexivity|]. split.
  - apply Hbad; discriminate.
  - exact (Hw x0a eq_refl).
Defined.

(** X12. The display commands. [lcd_clear] and [lcd_refresh] write one
    frame whose payload is the opcode alone. [lcd_pixel] writes one
    frame with payload [LCD_PIXEL, x, y, color] for all byte values of
    x, y and color: coordinates are not compared with the display size
    and the color is not restricted to 0 and 1. *)
Theorem lcd_frames (d : commands_def_full) (p : port) (g oc orf op bx by_ bc : byte) :
  int_of_byte g = CMD_TYPE_LCD d ->
  int_of_byte oc = CMD_LCD_CLEAR d ->
  int_of_byte orf = CMD_LCD_REFRESH d ->
  int_of_byte op = CMD_LCD_PIXEL d ->
  written (log (snd (lcd_clear d p))) = written (log p) ++ [frame_of g [oc]] /\
  written (log (snd (lcd_refresh d p))) = written (log p) ++ [frame_of g [orf]] /\
  written (log (snd (lcd_pixel d (int_of_byte bx) (int_of_byte by_)
                       (int_of_byte bc) p))) =
  written (log p) ++ [frame_of g [op; bx; by_; bc]].
Proof.
  intros Hg Hoc Horf Hop. split; [|split].
  - unfold lcd_clear. rewrite <- Hoc. pack_bytes.
    rewrite bind_lift_Ok. apply exchange_written; [exact Hg|cbn; lia|quiet].
  - unfold lcd_refresh. rewrite <- Horf. pack_bytes.
    rewrite bind_lift_Ok. apply exchange_written; [exact Hg|cbn; lia|quiet].
  - unfold lcd_pixel. rewrite <- Hop. pack_bytes.
    rewrite bind_lift_Ok. apply exchange_written; [exact Hg|cbn; lia|quiet].
Qed.

Lemma lcd_frames_witness :
  int_of_byte x02 = CMD_TYPE_LCD sample_full /\
  int_of_byte x00 = CMD_LCD_CLEAR sample_full /\
  int_of_byte x01 = CMD_LCD_REFRESH sample_full /\
  int_of_byte x02 = CMD_LCD_PIXEL sample_full /\
  written (log (snd (lcd_pixel sample_full 200 100 7 (fresh [])))) =
  [[x05; x02; x02; xc8; x64; x07; xab]].
Proof.
  destruct (lcd_frames sample_full (fresh []) x02 x00 x01 x02 xc8 x64 x07
              eq_refl eq_refl eq_refl eq_refl) as (_ & _ & Hp).
  repeat (split; [reflexivity|]). exact Hp.
Defined.

(** X13. [lcd_pixel] with a coordinate or a color outside [0, 255]
    raises [struct.error] and the port is not touched. *)
Theorem lcd_pixel_out_of_range (d : commands_def_full) (p : port)
    (x y color : Z) :
  ~ (0 <= x <= 255) \/ ~ (0 <= y <= 255) \/ ~ (0 <= color <= 255) ->
  lcd_pixel d x y color p = (Raise StructError, p).
Proof.
  intros Hbad. unfold lcd_pixel.
  destruct (pack _ _) as [payload|e] eqn:E.
  - exfalso. revert E. rewrite !pack_cons_B, pack_nil.
    destruct (byte_of_Z (CMD_LCD_PIXEL d)); [|discriminate].
    destruct (byte_of_Z x) as [bx|] eqn:Ex; [|discriminate].
    destruct (byte_of_Z y) as [by_|] eqn:Ey; [|discriminate].
    destruct (byte_of_Z color) as [bc|] eqn:Ec; [|discriminate].
    apply byte_of_Z_Some in Ex, Ey, Ec.
    pose proof (int_of_byte_range bx). pose proof (int_of_byte_range by_).
    pose proof (int_of_byte_range bc). lia.
  - now rewrite (pack_error _ _ _ E).
Qed.

Lemma lcd_pixel_out_of_range_witness :
  lcd_pixel sample_full 256 0 1 (fresh []) = (Raise StructError, fresh []).
Proof.
  apply lcd_pixel_out_of_range. left. intros [_ E]. exact (E eq_refl).
Defined.

Lemma range_check_false (lo hi z : Z) :
  lo <= z <= hi -> (z <? lo) || (hi <? z) = false.
Proof.
  intros Hz. apply orb_false_iff. split; apply Z.ltb_ge; lia.
Qed.

Lemma range_check_true (lo hi z : Z) :
  z < lo \/ hi < z -> (z <? lo) || (hi <? z) = true.
Proof.
  intros Hz. apply orb_true_iff.
  destruct Hz; [left|right]; apply Z.ltb_lt; lia.
Qed.

Lemma short_check (z : Z) : 0 <= z <= 65535 -> (0 <=? z) && (z <=? 65535) = true.
Proof. intros Hz. apply andb_true_iff. split; apply Z.leb_le; lia. Qed.

(** X14. [i2c_set_clock_khz]: a frequency outside [1, 400] raises the
    range exception with the port untouched; a frequency inside it gives
    exactly one written frame whose payload is the opcode followed by
    the frequency as two bytes, high byte first. *)
Theorem i2c_set_clock_khz_behaviour (d : commands_def_full) (p : port)
    (g o : byte) (clock_khz : Z) :
  int_of_byte g = CMD_TYPE_I2C d ->
  int_of_byte o = CMD_I2C_CLOCK d ->
  (clock_khz < 1 \/ 400 < clock_khz ->
   i2c_set_clock_khz d clock_khz p = (Raise (Exception msg_i2c_clock), p)) /\
  (1 <= clock_khz <= 400 ->
   exists hi lo,
     int_of_byte hi * 256 + int_of_byte lo = clock_khz /\
     written (log (snd (i2c_set_clock_khz d clock_khz p))) =
     written (log p) ++ [frame_of g [o; hi; lo]]).
Proof.
  intros Hg Ho. split.
  - intros Hbad. unfold i2c_set_clock_khz.
    now rewrite range_check_true.
  - intros Hok. unfold i2c_set_clock_khz.
    rewrite range_check_false by exact Hok.
    eexists. eexists. split; [apply (short_value clock_khz); lia|].
    rewrite <- Ho. pack_bytes. rewrite pack_cons_H, short_check by lia.
    rewrite pack_nil. cbn [rbind]. rewrite bind_lift_Ok.
    apply exchange_written; [exact Hg|cbn; lia|quiet].
Qed.

Lemma i2c_set_clock_khz_behaviour_witness :
  int_of_byte x05 = CMD_TYPE_I2C sample_full /\
  int_of_byte x01 = CMD_I2C_CLOCK sample_full /\
  i2c_set_clock_khz sample_full 401 (fresh []) =
  (Raise (Exception msg_i2c_clock), fresh []) /\
  exists hi lo,
    int_of_byte hi * 256 + int_of_byte lo = 400 /\
    written (log (snd (i2c_set_clock_khz sample_full 400 (fresh [])))) =
    written (log (fresh [])) ++ [frame_of x05 [x01; hi; lo]].
Proof.
  destruct (i2c_set_clock_khz_behaviour sample_full (fresh []) x05 x01 401
              eq_refl eq_refl) as [Hbad _].
  destruct (i2c_set_clock_khz_behaviour sample_full (fresh []) x05 x01 400
              eq_refl eq_refl) as [_ Hok].
  split; [reflexivity|]. split; [reflexivity|]. split.
  - apply Hbad. right. reflexivity.
  - apply Hok. split; intro E; discriminate E.
Defined.

(** X15. [spi_config] checks the clock first and the mode second, both
    before anything is sent: a clock outside [1, 60000] raises the clock
    exception; with a good clock a mode outside [0, 3] (so -1 and 4)
    raises the mode exception; with both in range exactly one frame is
    written, payload [SPI_CONFIG, clock high, clock low, mode]. *)
Theorem spi_config_behaviour (d : commands_def_full) (p : port) (g o : byte)
    (clock_khz mode : Z) :
  int_of_byte g = CMD_TYPE_SPI d ->
  int_of_byte o = CMD_SPI_CONFIG d ->
  (clock_khz < 1 \/ 60000 < clock_khz ->
   spi_config d clock_khz mode p = (Raise (Exception msg_spi_clock), p)) /\
  (1 <= clock_khz <= 60000 -> mode < 0 \/ 3 < mode ->
   spi_config d clock_khz mode p = (Raise (Exception msg_spi_mode), p)) /\
  (1 <= clock_khz <= 60000 -> 0 <= mode <= 3 ->
   exists hi lo bm,
     int_of_byte hi * 256 + int_of_byte lo = clock_khz /\
     int_of_byte bm = mode /\
     written (log (snd (spi_config d clock_khz mode p))) =
     written (log p) ++ [frame_of g [o; hi; lo; bm]]).
Proof.
  intros Hg Ho. split; [|split].
  - intros Hbad. unfold spi_config. now rewrite range_check_true.
  - intros Hc Hbad. unfold spi_config.
    rewrite range_check_false by exact Hc. now rewrite range_check_true.
  - intros Hc Hm. unfold spi_config.
    rewrite !range_check_false by assumption.
    destruct (byte_of_Z_is_byte mode) as (bm & Em & Hbm); [unfold is_byte; lia|].
    eexists. eexists. exists bm.
    split; [apply (short_value clock_khz); lia|]. split; [exact Hbm|].
    rewrite <- Ho. pack_bytes. rewrite pack_cons_H, short_check by lia.
    rewrite pack_cons_B, Em, pack_nil. cbn [rbind]. rewrite bind_lift_Ok.
    apply exchange_written; [exact Hg|cbn; lia|quiet].
Qed.

Lemma spi_config_behaviour_witness :
  int_of_byte x06 = CMD_TYPE_SPI sample_full /\
  int_of_byte x00 = CMD_SPI_CONFIG sample_full /\
  spi_config sample_full 1000 4 (fresh []) =
  (Raise (Exception msg_spi_mode), fresh []) /\
  spi_config sample_full 1000 (-1) (fresh []) =
  (Raise (Exception msg_spi_mode), fresh []) /\
  spi_config sample_full 0 4 (fresh []) =
  (Raise (Exception msg_spi_clock), fresh []).
Proof.
  assert (C : 1 <= 1000 <= 60000) by (split; intro E; discriminate E).
  destruct (spi_config_behaviour sample_full (fresh []) x06 x00 1000 4
              eq_refl eq_refl) as (_ & H4 & _).
  destruct (spi_config_behaviour sample_full (fresh []) x06 x00 1000 (-1)
              eq_refl eq_refl) as (_ & Hm1 & _).
  destruct (spi_config_behaviour sample_full (fresh []) x06 x00 0 4
              eq_refl eq_refl) as (H0 & _).
  split; [reflexivity|]. split; [reflexivity|]. split; [|split].
  - apply H4; [exact C|right; reflexivity].
  - apply Hm1; [exact C|left; reflexivity].
  - apply H0. left. reflexivity.
Defined.

(** X16. [spi_transfer]: more than 255 data bytes raise the length
    exception; 253 to 255 data bytes pass that check and are then
    refused with [struct.error], because the frame body would exceed 255
    bytes; in both cases the port is untouched. Up to 252 data bytes
    give exactly one written frame, payload [SPI_TRANSFER, length,
    data...]. *)
Theorem spi_transfer_behaviour (d : commands_def_full) (p : port) (g o : byte)
    (data_in : bytes) :
  int_of_byte g = CMD_TYPE_SPI d ->
  int_of_byte o = CMD_SPI_TRANSFER d ->
  ((255 < List.length data_in)%nat ->
   spi_transfer d data_in p = (Raise (Exception msg_spi_len), p)) /\
  ((253 <= List.length data_in <= 255)%nat ->
   spi_transfer d data_in p = (Raise StructError, p)) /\
  ((List.length data_in <= 252)%nat ->
   exists n,
     int_of_byte n = Z.of_nat (List.length data_in) /\
     written (log (snd (spi_transfer d data_in p))) =
     written (log p) ++ [frame_of g (o :: n :: data_in)]).
Proof.
  intros Hg Ho. split; [|split].
  - intros Hl. unfold spi_transfer. rewrite range_check_true by lia. reflexivity.
  - intros Hl. unfold spi_transfer. rewrite range_check_false by lia.
    destruct (byte_of_Z_is_byte (Z.of_nat (List.length data_in)))
      as (n & En & Hn); [unfold is_byte; lia|].
    rewrite <- Ho. pack_bytes. rewrite En. pack_bytes.
    rewrite bind_lift_Ok, app_nil_r.
    apply exchange_too_long. cbn [List.length]. lia.
  - intros Hl. unfold spi_transfer. rewrite range_check_false by lia.
    destruct (byte_of_Z_is_byte (Z.of_nat (List.length data_in)))
      as (n & En & Hn); [unfold is_byte; lia|].
    exists n. split; [exact Hn|].
    rewrite <- Ho. pack_bytes. rewrite En. pack_bytes.
    rewrite bind_lift_Ok, app_nil_r.
    apply exchange_written; [exact Hg|cbn [List.length]; lia|quiet].
Qed.

Lemma spi_transfer_behaviour_witness :
  int_of_byte x06 = CMD_TYPE_SPI sample_full /\
  int_of_byte x01 = CMD_SPI_TRANSFER sample_full /\
  spi_transfer sample_full (repeat xff 253) (fresh []) =
  (Raise StructError, fresh []) /\
  spi_transfer sample_full (repeat xff 256) (fresh []) =
  (Raise (Exception msg_spi_len), fresh []).
Proof.
  destruct (spi_transfer_behaviour sample_full (fresh []) x06 x01
              (repeat xff 253) eq_refl eq_refl) as (_ & H253 & _).
  destruct (spi_transfer_behaviour sample_full (fresh []) x06 x01
              (repeat xff 256) eq_refl eq_refl) as (H256 & _).
  split; [reflexivity|]. split; [reflexivity|]. split.
  - apply H253. rewrite repeat_length. lia.
  - apply H256. rewrite repeat_length. lia.
Defined.

(** A whole exchange on a port that holds an OK answer: the frame goes
    out, the answer is consumed, its payload comes back. *)
Lemma exchange_result (d : commands_def) (grp : Z) (g okb : byte)
    (payload resp rest : bytes) (lg : list event) :
  int_of_byte g = grp -> (List.length payload <= 254)%nat ->
  int_of_byte okb = CMD_RESP_OK d -> (List.length resp <= 254)%nat ->
  exists lg',
    (cmd <- lift (_make_cmd grp (Some payload)) ;; write cmd ;;; _get_resp d)
      {| rx := frame_of okb resp ++ rest; log := lg |} =
    (Ok resp, {| rx := rest; log := lg' |}) /\
    written lg' = written lg ++ [frame_of g payload].
Proof.
  intros Hg Hl Hok Hr. unfold bind, lift, write.
  rewrite (make_cmd_frame_of grp g payload Hg Hl). cbv beta iota.
  cbn [serial_write port_host rx log].
  destruct (get_resp_frame_of d okb resp rest
              (lg ++ [EvWrite (frame_of g payload)]) Hok Hr) as (lg' & E & W).
  exists lg'. rewrite E. split; [reflexivity|].
  rewrite W, written_app. reflexivity.
Qed.

(** X17. [uart_transfer] with up to 254 data bytes, on a port holding an
    OK answer: exactly one frame is written, with the data as its
    payload, the answer is consumed and its payload returned. With 255
    data bytes or more it raises [struct.error] and leaves the port
    untouched. *)
Theorem uart_transfer_behaviour (d : commands_def_full) (g okb : byte)
    (data resp rest : bytes) (lg : list event) :
  int_of_byte g = CMD_TYPE_UART d ->
  int_of_byte okb = CMD_RESP_OK d ->
  (List.length resp <= 254)%nat ->
  let p := {| rx := frame_of okb resp ++ rest; log := lg |} in
  ((List.length data <= 254)%nat ->
   exists lg',
     uart_transfer d (Some data) p = (Ok resp, {| rx := rest; log := lg' |}) /\
     written lg' = written lg ++ [frame_of g data]) /\
  ((255 <= List.length data)%nat ->
   uart_transfer d (Some data) p = (Raise StructError, p)).
Proof.
  intros Hg Hok Hr p. split; intros Hl.
  - apply (exchange_result d _ g okb data resp rest lg Hg Hl Hok Hr).
  - apply exchange_too_long, Hl.
Qed.

Lemma uart_transfer_behaviour_witness :
  int_of_byte x01 = CMD_TYPE_UART sample_full /\
  int_of_byte x01 = CMD_RESP_OK sample_full /\
  (List.length [x68; x69] <= 254)%nat /\
  exists lg',
    uart_transfer sample_full (Some [x41; x54])
      {| rx := frame_of x01 [x68; x69] ++ []; log := [] |} =
    (Ok [x68; x69], {| rx := []; log := lg' |}) /\
    written lg' = written [] ++ [frame_of x01 [x41; x54]].
Proof.
  assert (L : (List.length [x68; x69] <= 254)%nat) by (cbn; lia).
  assert (L' : (List.length [x41; x54] <= 254)%nat) by (cbn; lia).
  split; [reflexivity|]. split; [reflexivity|]. split; [exact L|].
  exact (proj1 (uart_transfer_behaviour sample_full x01 x01 [x41; x54]
                  [x68; x69] [] [] eq_refl eq_refl L) L').
Defined.

(** X18. [buttons] writes the three-byte frame [[1, group, group]] and
    returns the first payload byte of an OK answer as a number; an OK
    answer with an empty payload makes it raise [IndexError]. *)
Theorem buttons_behaviour (d : commands_def_full) (g okb : byte)
    (resp rest : bytes) (lg : list event) :
  int_of_byte g = CMD_TYPE_BTN d ->
  int_of_byte okb = CMD_RESP_OK d ->
  (List.length resp <= 254)%nat ->
  let r := buttons d {| rx := frame_of okb resp ++ rest; log := lg |} in
  fst r = match resp with
          | [] => Raise IndexError
          | m :: _ => Ok (int_of_byte m)
          end /\
  rx (snd r) = rest /\
  written (log (snd r)) = written lg ++ [[x01; g; g]].
Proof.
  intros Hg Hok Hr r.
  destruct (get_resp_frame_of d okb resp rest (lg ++ [EvWrite [x01; g; g]])
              Hok Hr) as (lg' & E & W).
  assert (Er : r = (match resp with
                    | [] => Raise IndexError
                    | m :: _ => Ok (int_of_byte m)
                    end, {| rx := rest; log := lg' |})).
  { subst r. unfold buttons.
    rewrite <- Hg. unfold _make_cmd. cbn [_crc].
    rewrite (pack_BBB _ _ _ x01 g g)
      by (try reflexivity; apply byte_of_Z_int_of_byte).
    rewrite bind_lift_Ok. unfold bind at 1. unfold write.
    cbn [serial_write port_host rx log].
    unfold bind. rewrite E. unfold lift. f_equal.
    destruct resp as [|m resp]; [reflexivity|apply index_first]. }
  rewrite Er. cbn [fst snd rx log].
  split; [reflexivity|split; [reflexivity|now rewrite W, written_app]].
Qed.

Lemma buttons_behaviour_witness :
  int_of_byte x04 = CMD_TYPE_BTN sample_full /\
  int_of_byte x01 = CMD_RESP_OK sample_full /\
  (List.length [x09] <= 254)%nat /\
  fst (buttons sample_full (fresh [x02; x01; x09; x08])) = Ok 9.
Proof.
  assert (L : (List.length [x09] <= 254)%nat) by (cbn; lia).
  split; [reflexivity|]. split; [reflexivity|]. split; [exact L|].
  exact (proj1 (buttons_behaviour sample_full x04 x01 [x09] [] []
                  eq_refl eq_refl L)).
Defined.

(** ** More on the I2C methods *)

Lemma reg_addr_int_length (n : Z) (ra : bytes) :
  0 <= n -> reg_addr_bytes (Int n) = Ok ra ->
  ((List.length ra <= 4)%nat <-> n < 2 ^ 32).
Proof.
  intros Hn E. split.
  - intros Hl. pose proof (from_bytes_bound ra) as [_ Hu].
    rewrite (reg_addr_value n ra Hn E) in Hu.
    eapply Z.lt_le_trans; [exact Hu|].
    rewrite pow_256 by lia. apply Z.pow_le_mono_r; lia.
  - intros Hlt.
    assert (Hv : from_bytes (be_digits 4 (Z.to_N n)) = n).
    { rewrite from_bytes_be_digits, Z2N.id by lia. apply Z.mod_small.
      change (256 ^ Z.of_nat 4) with (2 ^ 32). lia. }
    assert (Hne : be_digits 4 (Z.to_N n) <> []).
    { intros E0. apply (f_equal (@List.length byte)) in E0.
      rewrite be_digits_length in E0. discriminate E0. }
    pose proof (reg_addr_minimal n ra _ Hn E Hne Hv) as [_ Hm].
    now rewrite be_digits_length in Hm.
Qed.

Lemma reg_addr_bytes_negative (n : Z) :
  n < 0 -> reg_addr_bytes (Int n) = Raise OverflowError.
Proof.
  intros Hn. unfold reg_addr_bytes, to_bytes.
  now replace (n <? 0) with true by (symmetry; apply Z.ltb_lt; lia).
Qed.

(** X19. What [i2c_read] turns down before anything is sent: a negative
    integer register address ([OverflowError] from the conversion); an
    integer register address of 2^32 or more, or more than four address
    bytes (the address exception, whatever the length is); with a good
    address, a length outside [0, 255] (the length exception). Integer
    addresses from 0 up to 2^32 - 1 encode to at most four bytes. *)
Theorem i2c_read_validation {T : Type} `{Host T} (d : commands_def)
    (dev_addr length : Z) (s : T) :
  (forall n, n < 0 ->
     i2c_read d dev_addr (Int n) length s = (Raise OverflowError, s)) /\
  (forall n, 2 ^ 32 <= n ->
     i2c_read d dev_addr (Int n) length s =
     (Raise (Exception msg_reg_addr), s)) /\
  (forall b, (4 < List.length b)%nat ->
     i2c_read d dev_addr (Bytes b) length s =
     (Raise (Exception msg_reg_addr), s)) /\
  (forall reg_addr ra,
     reg_addr_bytes reg_addr = Ok ra -> (List.length ra <= 4)%nat ->
     length < 0 \/ 255 < length ->
     i2c_read d dev_addr reg_addr length s =
     (Raise (Exception msg_read_len), s)) /\
  (forall n, 0 <= n < 2 ^ 32 ->
     exists ra, reg_addr_bytes (Int n) = Ok ra /\ (List.length ra <= 4)%nat).
Proof.
  split; [|split; [|split; [|split]]].
  - intros n Hn. unfold i2c_read.
    now rewrite (reg_addr_bytes_negative n Hn).
  - intros n Hn. unfold i2c_read.
    assert (H0 : 0 <= n) by (pose proof (Z.pow_pos_nonneg 2 32); lia).
    pose proof (reg_addr_bytes_int n H0) as E. rewrite E, bind_lift_Ok.
    replace (4 <? Z.of_nat (List.length _)) with true; [reflexivity|].
    symmetry. apply Z.ltb_lt.
    destruct (Nat.le_gt_cases (List.length
                (be_digits (Z.to_nat (Z.max 1 ((bit_length n + 7) / 8)))
                   (Z.to_N n))) 4) as [Hle|Hgt]; [|lia].
    apply (reg_addr_int_length n _ H0 E) in Hle. lia.
  - intros b Hb. unfold i2c_read. cbn [reg_addr_bytes]. rewrite bind_lift_Ok.
    now replace (4 <? Z.of_nat (List.length b)) with true
      by (symmetry; apply Z.ltb_lt; lia).
  - intros reg_addr ra E Hl Hbad. unfold i2c_read. rewrite E, bind_lift_Ok.
    replace (4 <? Z.of_nat (List.length ra)) with false
      by (symmetry; apply Z.ltb_ge; lia).
    now rewrite range_check_true.
  - intros n [H0 Hn]. eexists. split; [apply reg_addr_bytes_int, H0|].
    apply (reg_addr_int_length n _ H0 (reg_addr_bytes_int n H0)), Hn.
Qed.

Lemma i2c_read_validation_witness :
  i2c_read sample_defs 80 (Int (-1)) 1 (fresh []) =
  (Raise OverflowError, fresh []) /\
  i2c_read sample_defs 80 (Int 4294967296) 1 (fresh []) =
  (Raise (Exception msg_reg_addr), fresh []) /\
  i2c_read sample_defs 80 (Int 4294967295) 256 (fresh []) =
  (Raise (Exception msg_read_len), fresh []).
Proof.
  destruct (i2c_read_validation sample_defs 80 1 (fresh []))
    as (Hneg & Hbig & _).
  destruct (i2c_read_validation sample_defs 80 256 (fresh []))
    as (_ & _ & _ & Hlen & _).
  split; [apply Hneg; reflexivity|].
  split; [apply Hbig; intro E; discriminate E|].
  apply (Hlen (Int 4294967295) [xff; xff; xff; xff] eq_refl).
  - cbn. lia.
  - right. reflexivity.
Defined.

(** X20. [i2c_read] with an address of at most four bytes, a device
    address that is a byte and a length in [0, 255], on a port holding
    an OK answer: exactly one frame is written, payload [I2C_READ,
    device, address length, address bytes, length], and the payload of
    the answer is returned as it is, whether or not it has the requested
    number of bytes. A device address outside [0, 255] raises
    [struct.error] and leaves the port untouched. *)
Theorem i2c_read_exchange (d : commands_def) (g o okb dv bl : byte)
    (reg_addr : obj) (ra resp rest : bytes) (lg : list event) :
  int_of_byte g = CMD_TYPE_I2C d ->
  int_of_byte o = CMD_I2C_READ d ->
  int_of_byte okb = CMD_RESP_OK d ->
  reg_addr_bytes reg_addr = Ok ra -> (List.length ra <= 4)%nat ->
  (List.length resp <= 254)%nat ->
  let p := {| rx := frame_of okb resp ++ rest; log := lg |} in
  (exists lg',
     i2c_read d (int_of_byte dv) reg_addr (int_of_byte bl) p =
     (Ok resp, {| rx := rest; log := lg' |}) /\
     written lg' =
     written lg ++
     [frame_of g (o :: dv :: byte_of_N (N.of_nat (List.length ra)) :: ra ++ [bl])]) /\
  (forall dev_addr, ~ (0 <= dev_addr <= 255) ->
     i2c_read d dev_addr reg_addr (int_of_byte bl) p = (Raise StructError, p)).
Proof.
  intros Hg Ho Hok Era Hl Hr p.
  pose proof (int_of_byte_range bl) as Hbl.
  assert (Hn : byte_of_Z (Z.of_nat (List.length ra)) =
               Some (byte_of_N (N.of_nat (List.length ra)))).
  { rewrite byte_of_Z_byte_of_N by (unfold is_byte; lia).
    now replace (Z.to_N (Z.of_nat (List.length ra)))
      with (N.of_nat (List.length ra)) by lia. }
  split.
  - unfold i2c_read. rewrite Era, bind_lift_Ok.
    replace (4 <? Z.of_nat (List.length ra)) with false
      by (symmetry; apply Z.ltb_ge; lia).
    rewrite range_check_false by lia.
    rewrite <- Ho. pack_bytes. rewrite Hn. pack_bytes.
    rewrite bind_lift_Ok.
    apply (exchange_result d _ g okb _ resp rest lg Hg); try assumption.
    cbn [List.length]. rewrite length_app. cbn [List.length]. lia.
  - intros dev_addr Hdev. unfold i2c_read. rewrite Era, bind_lift_Ok.
    replace (4 <? Z.of_nat (List.length ra)) with false
      by (symmetry; apply Z.ltb_ge; lia).
    rewrite range_check_false by lia.
    rewrite <- Ho. pack_bytes. rewrite (byte_of_Z_None dev_addr Hdev).
    reflexivity.
Qed.

Lemma i2c_read_exchange_witness :
  int_of_byte x05 = CMD_TYPE_I2C sample_defs /\
  int_of_byte x02 = CMD_I2C_READ sample_defs /\
  int_of_byte x01 = CMD_RESP_OK sample_defs /\
  reg_addr_bytes (Int 16) = Ok [x10] /\
  (List.length [x10] <= 4)%nat /\
  (List.length [xaa] <= 254)%nat /\
  exists lg',
    i2c_read sample_defs 80 (Int 16) 16
      {| rx := frame_of x01 [xaa] ++ []; log := [] |} =
    (Ok [xaa], {| rx := []; log := lg' |}) /\
    written lg' =
    written [] ++ [frame_of x05 [x02; x50; x01; x10; x10]].
Proof.
  assert (L4 : (List.length [x10] <= 4)%nat) by (cbn; lia).
  assert (L : (List.length [xaa] <= 254)%nat) by (cbn; lia).
  split; [reflexivity|]. split; [reflexivity|]. split; [reflexivity|].
  split; [reflexivity|]. split; [exact L4|]. split; [exact L|].
  exact (proj1 (i2c_read_exchange sample_defs x05 x02 x01 x50 x10 (Int 16)
                  [x10] [xaa] [] [] eq_refl eq_refl eq_refl eq_refl L4 L)).
Defined.

(** X21. How much [i2c_write] can really send: with an address of [r]
    bytes (at most four) and a device address that is a byte, up to
    [250 - r] data bytes give exactly one written frame, payload
    [I2C_WRITE, device, r, address bytes, data length, data...]; more
    than that, up to the 255 bytes the length check lets through, raise
    [struct.error] and leave the port untouched. *)
Theorem i2c_write_capacity (d : commands_def) (p : port) (g o dv : byte)
    (reg_addr : obj) (ra data : bytes) :
  int_of_byte g = CMD_TYPE_I2C d ->
  int_of_byte o = CMD_I2C_WRITE d ->
  reg_addr_bytes reg_addr = Ok ra -> (List.length ra <= 4)%nat ->
  ((List.length ra + List.length data <= 250)%nat ->
   written (log (snd (i2c_write d (int_of_byte dv) reg_addr data p))) =
   written (log p) ++
   [frame_of g (o :: dv :: byte_of_N (N.of_nat (List.length ra)) :: ra ++
                byte_of_N (N.of_nat (List.length data)) :: data)]) /\
  ((250 < List.length ra + List.length data)%nat ->
   (List.length data <= 255)%nat ->
   i2c_write d (int_of_byte dv) reg_addr data p = (Raise StructError, p)).
Proof.
  intros Hg Ho Era Hl.
  assert (Hn : byte_of_Z (Z.of_nat (List.length ra)) =
               Some (byte_of_N (N.of_nat (List.length ra)))).
  { rewrite byte_of_Z_byte_of_N by (unfold is_byte; lia).
    now replace (Z.to_N (Z.of_nat (List.length ra)))
      with (N.of_nat (List.length ra)) by lia. }
  split.
  - intros Hd.
    assert (Hm : byte_of_Z (Z.of_nat (List.length data)) =
                 Some (byte_of_N (N.of_nat (List.length data)))).
    { rewrite byte_of_Z_byte_of_N by (unfold is_byte; lia).
      now replace (Z.to_N (Z.of_nat (List.length data)))
        with (N.of_nat (List.length data)) by lia. }
    unfold i2c_write. rewrite Era, bind_lift_Ok.
    replace (4 <? Z.of_nat (List.length ra)) with false
      by (symmetry; apply Z.ltb_ge; lia).
    replace (255 <? Z.of_nat (List.length data)) with false
      by (symmetry; apply Z.ltb_ge; lia).
    rewrite <- Ho. pack_bytes. rewrite Hn. pack_bytes. rewrite Hm. pack_bytes.
    rewrite bind_lift_Ok, app_nil_r.
    apply exchange_written; [exact Hg| |quiet].
    cbn [List.length]. rewrite length_app. cbn [List.length]. lia.
  - intros Hd Hd'.
    assert (Hm : byte_of_Z (Z.of_nat (List.length data)) =
                 Some (byte_of_N (N.of_nat (List.length data)))).
    { rewrite byte_of_Z_byte_of_N by (unfold is_byte; lia).
      now replace (Z.to_N (Z.of_nat (List.length data)))
        with (N.of_nat (List.length data)) by lia. }
    unfold i2c_write. rewrite Era, bind_lift_Ok.
    replace (4 <? Z.of_nat (List.length ra)) with false
      by (symmetry; apply Z.ltb_ge; lia).
    replace (255 <? Z.of_nat (List.length data)) with false
      by (symmetry; apply Z.ltb_ge; lia).
    rewrite <- Ho. pack_bytes. rewrite Hn. pack_bytes. rewrite Hm. pack_bytes.
    rewrite bind_lift_Ok, app_nil_r.
    apply exchange_too_long.
    cbn [List.length]. rewrite length_app. cbn [List.length]. lia.
Qed.

Lemma i2c_write_capacity_witness :
  int_of_byte x05 = CMD_TYPE_I2C sample_defs /\
  int_of_byte x03 = CMD_I2C_WRITE sample_defs /\
  reg_addr_bytes (Int 16) = Ok [x10] /\
  (List.length [x10] <= 4)%nat /\
  i2c_write sample_defs 80 (Int 16) (repeat xaa 250) (fresh []) =
  (Raise StructError, fresh []) /\
  written (log (snd (i2c_write sample_defs 80 (Int 16) [xaa; xbb] (fresh [])))) =
  [frame_of x05 [x03; x50; x01; x10; x02; xaa; xbb]].
Proof.
  assert (L4 : (List.length [x10] <= 4)%nat) by (cbn; lia).
  destruct (i2c_write_capacity sample_defs (fresh []) x05 x03 x50 (Int 16)
              [x10] (repeat xaa 250) eq_refl eq_refl eq_refl L4) as [_ Hbig].
  destruct (i2c_write_capacity sample_defs (fresh []) x05 x03 x50 (Int 16)
              [x10] [xaa; xbb] eq_refl eq_refl eq_refl L4) as [Hok _].
  split; [reflexivity|]. split; [reflexivity|]. split; [reflexivity|].
  split; [exact L4|]. split.
  - apply Hbig; rewrite repeat_length; cbn; lia.
  - apply Hok. cbn. lia.
Defined.

Lemma index_byte_range (b : bytes) (i z : Z) : index b i = Ok z -> 0 <= z <= 255.
Proof.
  unfold index. destruct (_ && _); [|discriminate].
  destruct (nth_error _ _); [|discriminate].
  intros [= <-]. apply int_of_byte_range.
Qed.

(** X22. Whatever the port delivers, a payload returned by [_get_resp]
    has at most 254 bytes. *)
Theorem get_resp_payload_bound (d : commands_def) (p : port) (payload : bytes) :
  fst (_get_resp d p) = Ok payload -> (List.length payload <= 254)%nat.
Proof.
  unfold _get_resp, bind, read, lift, raise, ret.
  cbn [serial_read port_host].
  destruct (index _ 0) as [resp_len|] eqn:El; [|discriminate].
  apply index_byte_range in El.
  destruct (index _ 0) as [resp_type|]; [|discriminate].
  destruct (index _ (-1)) as [resp_crc|]; [|discriminate].
  destruct (negb _); [discriminate|]. destruct (negb _); [discriminate|].
  cbn [fst]. intros [= <-].
  rewrite slice_payload.
  rewrite removelast_firstn_len, length_firstn.
  match goal with
  | |- context [firstn ?n ?l] =>
      pose proof (firstn_le_length n l) as Hn;
      assert (Ht : List.length (tl (firstn n l)) = (List.length (firstn n l) - 1)%nat)
        by (destruct (firstn n l); cbn; lia)
  end.
  rewrite Ht. lia.
Qed.

Lemma get_resp_payload_bound_witness :
  fst (_get_resp sample_defs (fresh [x02; x01; x07; x06])) = Ok [x07] /\
  (List.length [x07] <= 254)%nat.
Proof.
  split; [reflexivity|].
  exact (get_resp_payload_bound sample_defs (fresh [x02; x01; x07; x06]) [x07]
           eq_refl).
Defined.

(** ** Integer register addresses on the wire *)

Lemma length_byte (l : bytes) :
  (List.length l <= 255)%nat ->
  byte_of_Z (Z.of_nat (List.length l)) =
  Some (byte_of_N (N.of_nat (List.length l))).
Proof.
  intros Hl. rewrite byte_of_Z_byte_of_N by (unfold is_byte; lia).
  now replace (Z.to_N (Z.of_nat (List.length l)))
    with (N.of_nat (List.length l)) by lia.
Qed.

(** What [i2c_read] sends once its checks are passed. *)
Lemma i2c_read_written (d : commands_def) (p : port) (g o dv bl : byte)
    (reg_addr : obj) (ra : bytes) :
  int_of_byte g = CMD_TYPE_I2C d ->
  int_of_byte o = CMD_I2C_READ d ->
  reg_addr_bytes reg_addr = Ok ra -> (List.length ra <= 4)%nat ->
  written (log (snd (i2c_read d (int_of_byte dv) reg_addr (int_of_byte bl) p))) =
  written (log p) ++
  [frame_of g (o :: dv :: byte_of_N (N.of_nat (List.length ra)) :: ra ++ [bl])].
Proof.
  intros Hg Ho Era Hl. pose proof (int_of_byte_range bl) as Hbl.
  unfold i2c_read. rewrite Era, bind_lift_Ok.
  replace (4 <? Z.of_nat (List.length ra)) with false
    by (symmetry; apply Z.ltb_ge; lia).
  rewrite range_check_false by lia.
  rewrite <- Ho. pack_bytes. rewrite length_byte by lia. pack_bytes.
  rewrite bind_lift_Ok.
  apply exchange_written; [exact Hg| |quiet].
  cbn [List.length]. rewrite length_app. cbn [List.length]. lia.
Qed.

(** What [i2c_write] sends once its checks are passed. *)
Lemma i2c_write_written (d : commands_def) (p : port) (g o dv : byte)
    (reg_addr : obj) (ra data : bytes) :
  int_of_byte g = CMD_TYPE_I2C d ->
  int_of_byte o = CMD_I2C_WRITE d ->
  reg_addr_bytes reg_addr = Ok ra -> (List.length ra <= 4)%nat ->
  (List.length ra + List.length data <= 250)%nat ->
  written (log (snd (i2c_write d (int_of_byte dv) reg_addr data p))) =
  written (log p) ++
  [frame_of g (o :: dv :: byte_of_N (N.of_nat (List.length ra)) :: ra ++
               byte_of_N (N.of_nat (List.length data)) :: data)].
Proof.
  intros Hg Ho Era Hl Hd.
  unfold i2c_write. rewrite Era, bind_lift_Ok.
  replace (4 <? Z.of_nat (List.length ra)) with false
    by (symmetry; apply Z.ltb_ge; lia).
  replace (255 <? Z.of_nat (List.length data)) with false
    by (symmetry; apply Z.ltb_ge; lia).
  rewrite <- Ho. pack_bytes. rewrite length_byte by lia. pack_bytes.
  rewrite length_byte by lia. pack_bytes.
  rewrite bind_lift_Ok, app_nil_r.
  apply exchange_written; [exact Hg| |quiet].
  cbn [List.length]. rewrite length_app. cbn [List.length]. lia.
Qed.

(** C6. An integer register address is turned into its big-endian byte
    string of minimal length, at least one byte: the bytes denote the
    integer, no non-empty byte string denoting it is shorter, and both
    I2C methods go on as if they had been given these bytes; 0 becomes
    [[0]] and 0x1234 becomes [[0x12, 0x34]]. For an address below 2^32
    the frame [i2c_read] writes carries these bytes, in this order,
    between the address length and the requested length, and the frame
    [i2c_write] writes carries them between the address length and the
    data length. [i2c_read(0x50, 0x10, 16)] sends the register address
    as the single byte 0x10 and the length 16 as the last payload
    byte. *)
Theorem reg_addr_int_minimal_big_endian {T : Type} `{Host T}
    (d : commands_def) (n : Z) (s : T) (p : port) (t o : byte) :
  0 <= n ->
  int_of_byte t = CMD_TYPE_I2C d ->
  int_of_byte o = CMD_I2C_READ d ->
  (exists bs,
     reg_addr_bytes (Int n) = Ok bs /\
     from_bytes bs = n /\
     (1 <= List.length bs)%nat /\
     (forall bs', bs' <> [] -> from_bytes bs' = n ->
                  (List.length bs <= List.length bs')%nat) /\
     (forall dev_addr length,
        i2c_read d dev_addr (Int n) length s =
        i2c_read d dev_addr (Bytes bs) length s) /\
     (forall dev_addr data,
        i2c_write d dev_addr (Int n) data s =
        i2c_write d dev_addr (Bytes bs) data s) /\
     (forall dv bl : byte,
        n < 2 ^ 32 ->
        written (log (snd (i2c_read d (int_of_byte dv) (Int n)
                             (int_of_byte bl) p))) =
        written (log p) ++
        [frame_of t (o :: dv :: byte_of_N (N.of_nat (List.length bs))
                     :: bs ++ [bl])]) /\
     (forall (ow dv : byte) (data : bytes),
        int_of_byte ow = CMD_I2C_WRITE d ->
        n < 2 ^ 32 ->
        (List.length bs + List.length data <= 250)%nat ->
        written (log (snd (i2c_write d (int_of_byte dv) (Int n) data p))) =
        written (log p) ++
        [frame_of t (ow :: dv :: byte_of_N (N.of_nat (List.length bs))
                     :: bs ++ byte_of_N (N.of_nat (List.length data))
                     :: data)])) /\
  reg_addr_bytes (Int 0) = Ok [x00] /\
  reg_addr_bytes (Int 0x10) = Ok [x10] /\
  reg_addr_bytes (Int 0x1234) = Ok [x12; x34] /\
  exists c,
    written (log (snd (i2c_read d 0x50 (Int 0x10) 16 p))) =
    written (log p) ++ [[x06; t; o; x50; x01; x10; x10; c]].
Proof.
  intros Hn Ht Ho.
  split; [|split; [reflexivity|split; [reflexivity|split; [reflexivity|]]]].
  - pose proof (reg_addr_bytes_int n Hn) as E.
    eexists. split; [exact E|].
    split; [exact (reg_addr_value n _ Hn E)|].
    split; [rewrite be_digits_length;
            pose proof (Z.le_max_l 1 ((bit_length n + 7) / 8)); lia|].
    split; [intros bs' Hne Hv; exact (proj2 (reg_addr_minimal n _ bs' Hn E Hne Hv))|].
    split; [intros; unfold i2c_read, bind, lift; now rewrite E|].
    split; [intros; unfold i2c_write, bind, lift; now rewrite E|].
    split.
    + intros dv bl Hlt. apply i2c_read_written; try assumption.
      now apply (reg_addr_int_length n _ Hn E).
    + intros ow dv data How Hlt Hd. apply i2c_write_written; try assumption.
      now apply (reg_addr_int_length n _ Hn E).
  - exact (i2c_read_scenario d p t o Ht Ho).
Qed.

Lemma reg_addr_int_minimal_big_endian_witness :
  0 <= 4660 /\
  int_of_byte x05 = CMD_TYPE_I2C sample_defs /\
  int_of_byte x02 = CMD_I2C_READ sample_defs /\
  (exists bs, reg_addr_bytes (Int 4660) = Ok bs /\ from_bytes bs = 4660) /\
  reg_addr_bytes (Int 0) = Ok [x00] /\
  (exists c,
     written (log (snd (i2c_read sample_defs 0x50 (Int 0x10) 16 (fresh [])))) =
     written (log (fresh [])) ++ [[x06; x05; x02; x50; x01; x10; x10; c]]) /\
  written (log (snd (i2c_write sample_defs 0x50 (Int 4660) [xaa; xbb] (fresh [])))) =
  [[x09; x05; x03; x50; x02; x12; x34; x02; xaa; xbb; x61]] /\
  written (log (snd (i2c_read sample_defs 0x50 (Int 4660) 3 (fresh [])))) =
  [[x07; x05; x02; x50; x02; x12; x34; x03; x70]].
Proof.
  assert (H0 : 0 <= 4660) by (intro E; discriminate E).
  destruct (reg_addr_int_minimal_big_endian sample_defs 4660 (fresh [])
              (fresh []) x05 x02 H0 eq_refl eq_refl)
    as ((bs & E & V & _ & _ & _ & _ & Hrd & Hwr) & Z0 & _ & _ & Sc).
  assert (Hlt : 4660 < 2 ^ 32) by reflexivity.
  assert (Eb : bs = [x12; x34])
    by (assert (E' : reg_addr_bytes (Int 4660) = Ok [x12; x34]) by reflexivity;
        rewrite E in E'; now injection E').
  split; [exact H0|]. split; [reflexivity|]. split; [reflexivity|].
  split; [exists bs; split; [exact E|exact V]|].
  split; [exact Z0|]. split; [exact Sc|]. split.
  - assert (L : (List.length bs + List.length [xaa; xbb] <= 250)%nat)
      by (rewrite Eb; cbn; lia).
    pose proof (Hwr x03 x50 [xaa; xbb] eq_refl Hlt L) as W.
    rewrite Eb in W. exact W.
  - pose proof (Hrd x50 x03 Hlt) as R. rewrite Eb in R. exact R.
Defined.

(** ** Every error of the driver has its kind *)



